(** * mutils.mutations: point mutations and combinatorial mutation spaces

    A shallow embedding of [src/mutils/mutations.py] (classes [Mutation] and
    [MutationSpace]) together with the properties of its notation model and
    of its enumerator.

    Conventions of the embedding:
    - a Python [str] is a [string], its characters being the code points
      0..255; a one-character Python string (the result of indexing) is a
      [string] of length one;
    - a Python [int] is a [Z];
    - a [tuple] or [list] of strings is a [list string];
    - a [dict] whose iteration order matters ([MutationSpace.dct]) is the
      list of its items in insertion order; a [dict] that is only looked up
      (the chain-rename mapping) is a [gmap string string];
    - a call that may raise returns a [result], the raised exception being
      the argument of [Raise];
    - memory suffices for the data that the program holds and builds; what
      the built-ins refuse whatever the data, a degree outside a C
      [ssize_t], an index array that the allocator does not grant (its
      size is the parameter [mem] of [size] and [construct]), a literal of
      more digits than [int()] accepts, is modelled as they raise it. *)

From Stdlib Require Import ZArith Ascii DecimalString.
From Stdlib Require String.
From stdpp Require Import gmap strings list fin_maps.

Local Open Scope Z_scope.

(** ** Exceptions and the result monad *)

(** The [ValueError]s raised by the module and by the built-ins it calls,
    told apart by what their message says. *)
Inductive value_error : Type :=
  | WrongConstructorArgs                 (* 'Wrong constructor argument values.' *)
  | NeitherForwardNorReverse (mut : string) (* f'{mut} is neither forward nor reverse.' *)
  | BothDctAndLst                        (* 'Both `dct` and `lst` passed.' *)
  | InvalidIntLiteral (s : string)       (* int(): invalid literal for int() *)
  | NegativeR                            (* itertools.combinations: r must be non-negative *)
  | NotInList                            (* list.remove(x): x not in list *)
  | IntMaxStrDigits (digits : nat).      (* int(): Exceeds the limit (4300 digits) *)

Inductive exn : Type :=
  | ValueError (why : value_error)
  | IndexError
  | KeyError (key : string)
  | TypeError
  | NotImplementedError
  | OverflowError
  | MemoryError.

Inductive result (A : Type) : Type :=
  | Ok (a : A)
  | Raise (e : exn).
Arguments Ok {A} a.
Arguments Raise {A} e.

Global Instance result_ret : MRet result := fun A a => Ok a.
Global Instance result_bind : MBind result := fun A B k r =>
  match r with
  | Ok a => k a
  | Raise e => Raise e
  end.

(** A comprehension [[f(x) for x in l]] whose body may raise is [mapM f l]:
    evaluated left to right, the first exception wins. *)

(** ** Python built-ins on strings *)

Definition str_len (s : string) : Z := Z.of_nat (String.length s).

(** [s[i]]: a negative index counts from the end; out of range raises. *)
Definition str_index (s : string) (i : Z) : result string :=
  let j := if i <? 0 then i + str_len s else i in
  if (j <? 0) || (str_len s <=? j) then Raise IndexError
  else match String.get (Z.to_nat j) s with
       | Some c => Ok (String c EmptyString)
       | None => Raise IndexError
       end.

(** A slice bound: negative bounds count from the end, and every bound is
    clamped to [0 .. len]. *)
Definition slice_bound (n : Z) (dflt : Z) (b : option Z) : Z :=
  match b with
  | None => dflt
  | Some i => if i <? 0 then Z.max 0 (i + n) else Z.min i n
  end.

(** [s[lo:hi]] (step 1); never raises. *)
Definition str_slice (s : string) (lo hi : option Z) : string :=
  let n := str_len s in
  let l := slice_bound n 0 lo in
  let h := slice_bound n n hi in
  String.substring (Z.to_nat l) (Z.to_nat (h - l)) s.

(** [sep.join(l)] *)
Fixpoint join (sep : string) (l : list string) : string :=
  match l with
  | [] => EmptyString
  | [x] => x
  | x :: l' => x +:+ sep +:+ join sep l'
  end.

(** [s.split(c)] for a one-character separator [c]: the result is never
    empty, [''.split(',') == ['']]. *)
Fixpoint split (c : ascii) (s : string) : list string :=
  match s with
  | EmptyString => [EmptyString]
  | String a s' =>
      if Ascii.eqb a c then EmptyString :: split c s'
      else match split c s' with
           | [] => [String a EmptyString]
           | h :: t => String a h :: t
           end
  end.

(** [s.replace(c, '')] for a one-character [c]: every occurrence goes. *)
Fixpoint remove_char (c : ascii) (s : string) : string :=
  match s with
  | EmptyString => EmptyString
  | String a s' =>
      if Ascii.eqb a c then remove_char c s' else String a (remove_char c s')
  end.

(** Python's notion of a whitespace character ([str.isspace]) on the code
    points 0..255: TAB, LF, VT, FF, CR, FS, GS, RS, US, SPACE, NEL, NBSP. *)
Definition is_space (a : ascii) : bool :=
  let n := nat_of_ascii a in
  ((9 <=? n) && (n <=? 13) || (28 <=? n) && (n <=? 32)
   || (n =? 133) || (n =? 160))%nat.

Definition is_digit (a : ascii) : bool :=
  let n := nat_of_ascii a in ((48 <=? n) && (n <=? 57))%nat.

Definition digit_value (a : ascii) : Z := Z.of_nat (nat_of_ascii a) - 48.

(** What [int()] takes for whitespace around a literal: TAB, LF, VT, FF, CR
    and SPACE, and, of the code points above 127, those of [str.isspace],
    NEL and NBSP, which it turns into spaces first. FS, GS, RS and US
    (28 to 31) are whitespace for [str.isspace] and not for [int()]. *)
Definition is_int_space (a : ascii) : bool :=
  let n := nat_of_ascii a in
  ((9 <=? n) && (n <=? 13) || (n =? 32) || (n =? 133) || (n =? 160))%nat.

(** The literal of [int(s)] without the whitespace around it. *)
Fixpoint int_lstrip (s : string) : string :=
  match s with
  | String a s' => if is_int_space a then int_lstrip s' else s
  | EmptyString => EmptyString
  end.

Fixpoint int_rstrip (s : string) : string :=
  match s with
  | EmptyString => EmptyString
  | String a s' =>
      match int_rstrip s' with
      | EmptyString =>
          if is_int_space a then EmptyString else String a EmptyString
      | r => String a r
      end
  end.

Definition int_strip (s : string) : string := int_rstrip (int_lstrip s).

(** The digits of a decimal literal, after the sign: at least one digit,
    single underscores allowed between digits only. [prev] tells whether the
    previous character was a digit; [acc] is the value read so far. *)
Fixpoint int_digits (prev : bool) (acc : Z) (s : string) : option Z :=
  match s with
  | EmptyString => if prev then Some acc else None
  | String a s' =>
      if is_digit a then int_digits true (10 * acc + digit_value a) s'
      else if Ascii.eqb a "_" then
        if prev then int_digits false acc s' else None
      else None
  end.

(** The number of digits of a literal, underscores not counted, and the
    limit that [int()] sets on it, [sys.get_int_max_str_digits()], at its
    default. *)
Fixpoint count_digits (s : string) : nat :=
  match s with
  | EmptyString => O
  | String a s' => if is_digit a then S (count_digits s') else count_digits s'
  end.

Definition int_max_str_digits : Z := 4300.

(** [int(s)] for a string [s], base 10: the literal is validated, then
    refused if it has more digits than the limit. *)
Definition py_int (s : string) : result Z :=
  let bad := Raise (ValueError (InvalidIntLiteral s)) in
  let of_digits (neg : bool) (t : string) :=
    match t with
    | String "_" _ => bad
    | _ => match int_digits false 0 t with
           | Some v =>
               if int_max_str_digits <? Z.of_nat (count_digits t)
               then Raise (ValueError (IntMaxStrDigits (count_digits t)))
               else Ok (if neg then - v else v)
           | None => bad
           end
    end in
  match int_strip s with
  | String "-" t => of_digits true t
  | String "+" t => of_digits false t
  | t => of_digits false t
  end.

(** ** Python built-ins on lists, [itertools] and [math] *)

(** [l[i]] on a list. *)
Definition list_getitem {A} (l : list A) (i : Z) : result A :=
  let n := Z.of_nat (length l) in
  let j := if i <? 0 then i + n else i in
  if (j <? 0) || (n <=? j) then Raise IndexError
  else match l !! Z.to_nat j with
       | Some x => Ok x
       | None => Raise IndexError
       end.

(** [len(x)] where [x] may be [None]: [len(None)] is a [TypeError]. *)
Definition py_len {A} (x : option (list A)) : result Z :=
  match x with
  | Some l => Ok (Z.of_nat (length l))
  | None => Raise TypeError
  end.

(** [range(lo, hi)] *)
Definition range (lo hi : Z) : list Z :=
  (fun i => lo + Z.of_nat i) <$> seq 0 (Z.to_nat (hi - lo)).

(** [sum(l)] and [math.prod(l)] *)
Definition py_sum (l : list Z) : Z := foldr Z.add 0 l.
Definition math_prod (l : list Z) : Z := foldr Z.mul 1 l.

(** The [r]-length subsequences of [l], in lexicographic order of the index
    tuples: what [itertools.combinations(l, r)] yields for [0 <= r]. *)
Fixpoint combinations {A} (l : list A) (r : nat) : list (list A) :=
  match l with
  | [] => match r with O => [[]] | S _ => [] end
  | x :: l' =>
      match r with
      | O => [[]]
      | S r' => (cons x <$> combinations l' r') ++ combinations l' r
      end
  end.

(** [sys.maxsize], the largest C [ssize_t], and the largest array of
    [ssize_t] that [PyMem_New] does not refuse outright. *)
Definition ssize_t_max : Z := 2 ^ 63 - 1.
Definition pymem_max_words : Z := ssize_t_max / 8.

(** The largest index array that [itertools.combinations] gets:
    [mem] words is what the allocator of the machine grants. *)
Definition alloc_max (mem : Z) : Z := Z.min mem pymem_max_words.

(** Why [itertools.combinations(pool, r)] refuses [r] for a pool of [n]
    items, if it does. It converts [r] to a C [ssize_t] ([OverflowError]
    outside it), wants [r] non-negative ([ValueError]), and allocates an
    array of [r] indices ([MemoryError] if it gets none). A pool has no
    more than [sys.maxsize] items and its tuple has just been allocated:
    a degree within the pool converts, and its index array, no longer
    than the pool, is granted, memory sufficing in the model for data of
    the size at hand. Beyond the pool the array is granted up to
    [alloc_max mem] words. *)
Definition combinations_refusal (mem : Z) (n : Z) (r : Z) : option exn :=
  if r <? 0 then
    Some (if r <? - ssize_t_max - 1 then OverflowError
          else ValueError NegativeR)
  else if r <=? n then None
  else if ssize_t_max <? r then Some OverflowError
  else if alloc_max mem <? r then Some MemoryError
  else None.

(** [itertools.combinations(l, r)] *)
Definition itertools_combinations {A} (mem : Z) (l : list A) (r : Z)
    : result (list (list A)) :=
  match combinations_refusal mem (Z.of_nat (length l)) r with
  | Some e => Raise e
  | None => Ok (combinations l (Z.to_nat r))
  end.

(** [itertools.product] of the iterables in [ls]: the right-most iterable
    varies fastest; the product of no iterable is the one empty tuple. *)
Fixpoint itertools_product {A} (ls : list (list A)) : list (list A) :=
  match ls with
  | [] => [[]]
  | l :: ls' => x ← l; cons x <$> itertools_product ls'
  end.

(** [l.remove(x)]: drops the first occurrence, [ValueError] if there is
    none. *)
Fixpoint list_remove (x : string) (l : list string) : result (list string) :=
  match l with
  | [] => Raise (ValueError NotInList)
  | y :: l' =>
      if bool_decide (y = x) then Ok l'
      else l'' ← list_remove x l'; Ok (y :: l'')
  end.

(** A [for] loop that updates one variable and whose body may raise. *)
Fixpoint for_each {A S} (body : S → A → result S) (l : list A) (s : S)
    : result S :=
  match l with
  | [] => Ok s
  | x :: l' => s' ← body s x; for_each body l' s'
  end.

(** ** Decorators *)

(** Modelled from the spec: the decorator [verbose] of [mutils.misc], which
    is not among the sources. The specification counts it among the
    "verbosity/logging decoration" outside the core: the function it wraps
    keeps its arguments, its result and its exceptions. *)
Definition verbose {F : Type} (f : F) : F := f.

(** ** class Mutation *)

Module Mutation.

Record t : Type := { muttuple : list string }.

(** [Mutation.__init__(mutstr='', muttuple=())]. The [muttuple] argument
    is taken as already being a sequence of strings, so that the
    conversion [tuple(muttuple)] is the identity and cannot raise. *)
Definition __init__ (mutstr : string) (muttuple : list string) : result t :=
  if bool_decide (mutstr ≠ EmptyString) && bool_decide (muttuple ≠ [])
  then Raise (ValueError WrongConstructorArgs)
  else if bool_decide (mutstr ≠ EmptyString)
  then Ok {| muttuple := split "," (remove_char " " mutstr) |}
  else Ok {| muttuple := muttuple |}.

(** [revert_single(mut)]: [mut[-1] + mut[1:-1] + mut[0]] *)
Definition revert_single (mut : string) : result string :=
  last ← str_index mut (-1);
  first ← str_index mut 0;
  Ok (last +:+ str_slice mut (Some 1) (Some (-1)) +:+ first).

(** [dct[k]] on the rename mapping *)
Definition dict_getitem (dct : gmap string string) (k : string)
    : result string :=
  match dct !! k with
  | Some v => Ok v
  | None => Raise (KeyError k)
  end.

(** [rename_chains_single(mut, dct)]: [mut[:1] + dct[mut[1]] + mut[2:]] *)
Definition rename_chains_single (mut : string) (dct : gmap string string)
    : result string :=
  chain ← str_index mut 1;
  new ← dict_getitem dct chain;
  Ok (str_slice mut None (Some 1) +:+ new +:+ str_slice mut (Some 2) None).

(** [revert(self)] *)
Definition revert (self : t) : result t :=
  tup ← mapM revert_single (muttuple self);
  __init__ EmptyString tup.

(** [rename_chains(self, dct)] *)
Definition rename_chains (self : t) (dct : gmap string string) : result t :=
  tup ← mapM (fun mut => rename_chains_single mut dct) (muttuple self);
  __init__ EmptyString tup.

(** The expression [mut[0], mut[1], int(mut[2:-1]), mut[-1]], shared by
    [parse_single] and [is_mutation_reversed]; evaluated left to right. *)
Definition parse_fields (mut : string)
    : result (string * string * Z * string) :=
  wtres ← str_index mut 0;
  chainid ← str_index mut 1;
  pos ← py_int (str_slice mut (Some 2) (Some (-1)));
  mutres ← str_index mut (-1);
  Ok (wtres, chainid, pos, mutres).

(** [parse_single(mut)]: [None] stands for the tuple of four [None]s
    returned on the empty string. *)
Definition parse_single (mut : string)
    : result (option (string * string * Z * string)) :=
  if (String.length mut =? 0)%nat then Ok None
  else r ← parse_fields mut; Ok (Some r).

(** [__str__(self)] *)
Definition __str__ (self : t) : string := join "," (muttuple self).

(** [is_mutation_reversed] reads a PDB file through [Bio.PDB], which is
    not part of the module: the three calls it makes are parameters. *)
Section structure_lookup.
Variable Model : Type.
(** [Bio.PDB.PDBParser().get_structure(None, pdbfile)[model_id]] *)
Variable get_model : string → Z → result Model.
(** [model[chainid][pos].get_resname()] *)
Variable get_resname : Model → string → Z → result string.
(** [Bio.PDB.Polypeptide.three_to_one(resname)] *)
Variable three_to_one : string → result string.

Definition is_mutation_reversed : t → string → Z → result bool :=
  verbose (fun self pdbfile model_id =>
  mut ← list_getitem (muttuple self) 0;
  '(wtres, chainid, pos, mutres) ← parse_fields mut;
  model ← get_model pdbfile model_id;
  resname ← get_resname model chainid pos;
  resname ← three_to_one resname;
  if bool_decide (resname = wtres) then Ok false
  else if bool_decide (resname = mutres) then Ok true
  else Raise (ValueError (NeitherForwardNorReverse mut))).
End structure_lookup.

(** *** Objects
    A [Mutation] is an object: a method receives a reference to it. The
    store holds the objects created so far, a reference is an index in
    it, and a constructor call appends a new object. *)
Definition store : Type := list t.

Definition new (σ : store) (mutstr : string) (muttuple : list string)
    : result (store * nat) :=
  m ← __init__ mutstr muttuple; Ok (σ ++ [m], length σ).

(** [self.revert()] on a reference: reads [self.muttuple], builds the new
    tuple and returns [Mutation(muttuple=...)]. A reference always points
    to a live object; the last case is for an index that is none. *)
Definition revert_ref (σ : store) (self : nat) : result (store * nat) :=
  match σ !! self with
  | Some m =>
      tup ← mapM revert_single (muttuple m);
      new σ EmptyString tup
  | None => Raise TypeError
  end.

(** [self.rename_chains(dct)] on a reference. *)
Definition rename_chains_ref (σ : store) (self : nat)
    (dct : gmap string string) : result (store * nat) :=
  match σ !! self with
  | Some m =>
      tup ← mapM (fun mut => rename_chains_single mut dct) (muttuple m);
      new σ EmptyString tup
  | None => Raise TypeError
  end.

End Mutation.

(** ** class MutationSpace *)

Module MutationSpace.

(** The items of [dct] in insertion order: position key, candidate
    one-letter codes. *)
Definition dict : Type := list (string * string).

(** [lst]: one slot per position, each the list of its point mutations *)
Definition slots : Type := list (list string).

Record t : Type := {
  dct : option dict;
  lst : slots;
  n_pos : Z
}.

(** [_dict_to_list(dct)]:
    [[[pref + mt for mt in mts] for pref, mts in dct.items()]] *)
Definition _dict_to_list (dct : dict) : slots :=
  (fun '(pref, mts) =>
     (fun mt => pref +:+ String mt EmptyString) <$> String.list_ascii_of_string mts)
  <$> dct.

(** [__init__(self, dct=None, lst=None)]. [self.lst] may still be [None]
    when its length is taken. *)
Definition __init__ (dct : option dict) (lst : option slots) : result t :=
  if bool_decide (dct ≠ None) && bool_decide (lst ≠ None)
  then Raise (ValueError BothDctAndLst)
  else
    let self_lst :=
      if bool_decide (lst = None) && bool_decide (dct ≠ None)
      then _dict_to_list <$> dct
      else lst in
    n ← py_len self_lst;
    match self_lst with
    | Some l => Ok {| dct := dct; lst := l; n_pos := n |}
    | None => Raise TypeError
    end.

(** [size(self, d, wt)] for a given degree [d] (the part of [size] after
    the test [d is None]). [mem] is the memory of the machine, see
    [alloc_max]. *)
Definition size_of_degree (mem : Z) (self : t) (d : Z) (wt : bool)
    : result Z :=
  let retval := if wt then 1 else 0 in
  if d =? 0 then Ok retval
  else
    combs ← itertools_combinations mem
              (range 0 (Z.of_nat (length (lst self)))) d;
    for_each
      (fun retval comb =>
         lens ← mapM (fun i => x ← list_getitem (lst self) i;
                                 Ok (Z.of_nat (length x))) comb;
         Ok (retval + math_prod lens))
      combs retval.

(** [size(self, d=None, wt=False)]: [None] is the unspecified degree, for
    which the recursive calls [self.size(d)] leave [wt] at its default. *)
Definition size (mem : Z) (self : t) (d : option Z) (wt : bool) : result Z :=
  match d with
  | None =>
      sizes ← mapM (fun d => size_of_degree mem self d false)
                   (range 1 (n_pos self + 1));
      Ok (py_sum sizes)
  | Some d => size_of_degree mem self d wt
  end.

(** The strings of the product, before the identity is removed: the
    statements of [construct] from [retval = self.lst] to the [join].
    [placeholder] is the test [d != -1]. *)
Definition joined_product (lst : slots) (placeholder : bool) : list string :=
  let retval := lst in
  let retval :=
    if placeholder then (fun x => x ++ [EmptyString]) <$> retval
    else retval in
  let retval := itertools_product retval in
  let retval :=
    (fun m => filter (fun s => s ≠ EmptyString) m) <$> retval in
  join "," <$> retval.

(** The last part of [construct], "Generate full space", which runs for
    [d] unspecified and for the sentinel [d = -1]. *)
Definition full_space (self : t) (d : option Z) : result (list string) :=
  let placeholder := bool_decide (d ≠ Some (-1)) in
  let retval := joined_product (lst self) placeholder in
  if placeholder then list_remove EmptyString retval else Ok retval.

(** [construct(self, d=None, n=None)]. The call
    [MutationSpace(lst=comb).construct(d=-1)] passes the first three tests
    of [construct] and is therefore [full_space] at [d = -1]. *)
Definition construct (mem : Z) (self : t) (d : option Z) (n : option Z)
    : result (list string) :=
  if bool_decide (n ≠ None) then Raise NotImplementedError
  else if bool_decide (d = Some 0) then Ok []
  else
    match d with
    | Some d' =>
        if bool_decide (d' ≠ -1) then
          combs ← itertools_combinations mem (lst self) d';
          for_each
            (fun retval comb =>
               sub ← __init__ None (Some comb);
               part ← full_space sub (Some (-1));
               Ok (retval ++ part))
            combs []
        else full_space self d
    | None => full_space self d
    end.

End MutationSpace.

(** ** Module-level functions *)

(** [is_residue_wt(pdbfile, chainid, pos, res, model_id=0)]. [load_pdb]
    belongs to [mutils.pdb], which is not among the sources, and the
    residue lookup to [Bio.PDB]: they are parameters. *)
Section residue_lookup.
Variable Model : Type.
(** [load_pdb(pdbfile, model_id=model_id)] *)
Variable load_pdb : string → Z → result Model.
(** [model[chainid][pos].get_resname()] *)
Variable get_resname : Model → string → Z → result string.
(** [Bio.PDB.Polypeptide.three_to_one(resname)] *)
Variable three_to_one : string → result string.

Definition is_residue_wt : string → string → Z → string → Z → result bool :=
  verbose (fun pdbfile chainid pos res model_id =>
  model ← load_pdb pdbfile model_id;
  res_true ← get_resname model chainid pos;
  res_true ← three_to_one res_true;
  Ok (bool_decide (res = res_true))).
End residue_lookup.

(** ** MutationSpace.from_affilib *)

(** [s.split()]: the maximal runs of characters that are not whitespace.
    [words_from s] is the run that starts [s], empty if [s] starts with
    whitespace, and the later runs. *)
Fixpoint words_from (s : string) : string * list string :=
  match s with
  | EmptyString => (EmptyString, [])
  | String a s' =>
      let '(w, ws) := words_from s' in
      if is_space a
      then (EmptyString, if bool_decide (w = EmptyString) then ws else w :: ws)
      else (String a w, ws)
  end.

Definition str_split_whitespace (s : string) : list string :=
  let '(w, ws) := words_from s in
  if bool_decide (w = EmptyString) then ws else w :: ws.

(** [s.replace(old, '')]: the occurrences of [old] are dropped from left to
    right, none overlapping another; [skip] counts the characters of the
    occurrence under way that are still to drop. An empty [old] leaves [s]
    as it is. *)
Fixpoint drop_occurrences (old : string) (skip : nat) (s : string) : string :=
  match s with
  | EmptyString => EmptyString
  | String a s' =>
      match skip with
      | S k => drop_occurrences old k s'
      | O =>
          if String.prefix old s
          then drop_occurrences old (String.length old - 1) s'
          else String a (drop_occurrences old 0 s')
      end
  end.

Definition str_replace_by_empty (s old : string) : string :=
  if bool_decide (old = EmptyString) then s else drop_occurrences old 0 s.

(** [str(i)] for an [int], as the f-string formats it *)
Definition str_of_int (i : Z) : string := NilZero.string_of_int (Z.to_int i).

(** [dct[key] = value] on the items of a dict: a key that is there keeps
    its place and takes the value, a new key goes last. *)
Fixpoint dict_setitem (key value : string) (dct : MutationSpace.dict)
    : MutationSpace.dict :=
  match dct with
  | [] => [(key, value)]
  | (k, v) :: dct' =>
      if bool_decide (k = key) then (k, value) :: dct'
      else (k, v) :: dict_setitem key value dct'
  end.

(** What [from_affilib] raises: the exception of a call it makes, the
    [ValueError] of [dict()] on a sequence element that is no pair
    ("dictionary update sequence element #index has length len; 2 is
    required"), or its own [ValueError] ("Residue list does not contain
    wild type {wt} on {key_raw}"). *)
Inductive affilib_exn : Type :=
  | CallRaised (e : exn)
  | DictUpdateLength (index len : nat)
  | NoWildType (wt key_raw : string).

Inductive affilib_result (A : Type) : Type :=
  | Done (a : A)
  | Failed (e : affilib_exn).
Arguments Done {A} a.
Arguments Failed {A} e.

Global Instance affilib_ret : MRet affilib_result := fun A a => Done a.
Global Instance affilib_bind : MBind affilib_result := fun A B k r =>
  match r with
  | Done a => k a
  | Failed e => Failed e
  end.

Definition call {A} (r : result A) : affilib_result A :=
  match r with
  | Ok a => Done a
  | Raise e => Failed (CallRaised e)
  end.

(** [dict(seqs)] for a list of lists of strings, [index] being the number
    of elements consumed before [seqs]. *)
Fixpoint dict_of_sequences (index : nat) (seqs : list (list string))
    (dct : MutationSpace.dict) : affilib_result MutationSpace.dict :=
  match seqs with
  | [] => Done dct
  | [k; v] :: seqs' => dict_of_sequences (S index) seqs' (dict_setitem k v dct)
  | seq :: _ => Failed (DictUpdateLength index (length seq))
  end.

(** A [for] loop over the items of a dict, with the dict under
    construction as its state. *)
Fixpoint for_items (body : MutationSpace.dict → string * string →
                          affilib_result MutationSpace.dict)
    (items : MutationSpace.dict) (dct : MutationSpace.dict)
    : affilib_result MutationSpace.dict :=
  match items with
  | [] => Done dct
  | item :: items' => dct' ← body dct item; for_items body items' dct'
  end.

(** [from_affilib(cls, affilib_path, pdb_path)]. [load_pdb] belongs to
    [mutils.pdb], which is not among the sources, the residue lookup to
    [Bio.PDB], and reading the lines of a file to the operating system:
    they are parameters. *)
Section from_affilib.
Variable Model : Type.
(** [load_pdb(pdb_path, model_id=0, verbose=False)] *)
Variable load_pdb : string → Z → result Model.
(** [open(affilib_path, 'r').readlines()] *)
Variable readlines : string → result (list string).
(** [model[chainid][pos].get_resname()] *)
Variable get_resname : Model → string → Z → result string.
(** [Bio.PDB.Polypeptide.three_to_one(resname)] *)
Variable three_to_one : string → result string.

(** The body of the loop over [dct_raw.items()]. *)
Definition affilib_item (model : Model) (dct : MutationSpace.dict)
    (item : string * string) : affilib_result MutationSpace.dict :=
  let '(key_raw, value_raw) := item in
  pos ← call (py_int (str_slice key_raw None (Some (-1))));
  chainid ← call (str_index key_raw (-1));
  resname ← call (get_resname model chainid pos);
  wt ← call (three_to_one resname);
  let value := str_replace_by_empty value_raw wt in
  if str_len value =? str_len value_raw
  then Failed (NoWildType wt key_raw)
  else
    let key := wt +:+ chainid +:+ str_of_int pos in
    Done (dict_setitem key value dct).

Definition from_affilib (affilib_path pdb_path : string)
    : affilib_result MutationSpace.t :=
  model ← call (load_pdb pdb_path 0);
  rows ← call (readlines affilib_path);
  dct_raw ← dict_of_sequences 0 (str_split_whitespace <$> rows) [];
  dct ← for_items (affilib_item model) dct_raw [];
  call (MutationSpace.__init__ (Some dct) None).
End from_affilib.

(** ** The words of the specification *)

(** The format of a point mutation: wild-type residue, chain id, position
    (decimal digits, at least one), mutant residue. *)
Definition is_point_mutation (s : string) : bool :=
  (4 <=? String.length s)%nat
  && forallb is_digit
       (String.list_ascii_of_string (str_slice s (Some 2) (Some (-1)))).

(** The chain id of a point mutation: its second character, if any. *)
Definition chain_id (s : string) : option string :=
  match s with
  | String _ (String c _) => Some (String c EmptyString)
  | _ => None
  end.

(** "Removing all whitespace", as the specification words the string form
    of the constructor: every whitespace character goes, not only the
    space. *)
Fixpoint remove_whitespace (s : string) : string :=
  match s with
  | EmptyString => EmptyString
  | String a s' =>
      if is_space a then remove_whitespace s'
      else String a (remove_whitespace s')
  end.

Definition has_whitespace (s : string) : bool :=
  existsb is_space (String.list_ascii_of_string s).

(** What [revert] does to one point mutation, and what [rename_chains]
    does to it under the mapping [dct]. *)
Definition swapped_ends (s s' : string) : Prop :=
  ∃ a mid b, s = String a (mid +:+ String b EmptyString)
             ∧ s' = String b (mid +:+ String a EmptyString).

Definition renamed (dct : gmap string string) (s s' : string) : Prop :=
  ∃ a c rest v, s = String a (String c rest)
                ∧ dct !! String c EmptyString = Some v
                ∧ s' = String a (v +:+ rest).

(** The sum over the combinations [L] of the product of the slot sizes:
    the count Σ_S Π_(i∈S) |slot_i| of the specification. *)
Definition count_choices (L : list (list (list string))) : Z :=
  py_sum ((fun c => math_prod ((fun x => Z.of_nat (length x)) <$> c)) <$> L).

(** ** Inputs of the examples *)

(** The double point mutation of the docstring of [Mutation]. *)
Definition ex_mutation : Mutation.t :=
  {| Mutation.muttuple := ["YC17T"; "TA20A"] |}.

(** [{'C': 'A'}], the rename mapping of the docstring of [rename_chains] *)
Definition ex_rename : gmap string string := {[ "C" := "A" ]}.

(** ["YC17T,\tTA20A"]: a TAB after the comma *)
Definition tabbed_mutstr : string :=
  "YC17T," +:+ String (ascii_of_nat 9) "TA20A".

(** [{'YC17': 'AG', 'TA20': 'A'}] *)
Definition ex_dct : MutationSpace.dict := [("YC17", "AG"); ("TA20", "A")].

(** A structure with the single residue TYR at position 17 of chain C, and
    the residue names that the examples translate. *)
Definition ex_get_model (pdbfile : string) (model_id : Z) : result unit :=
  Ok ().
Definition ex_get_resname (model : unit) (chainid : string) (pos : Z)
    : result string :=
  if bool_decide (chainid = "C") && (pos =? 17) then Ok "TYR"
  else Raise (KeyError chainid).
Definition ex_three_to_one (resname : string) : result string :=
  if bool_decide (resname = "TYR") then Ok "Y"
  else if bool_decide (resname = "THR") then Ok "T"
  else Raise (KeyError resname).

(** ** Vocabulary of the further properties *)

(** Whether the character [c] occurs in [s]. *)
Fixpoint contains_char (c : ascii) (s : string) : bool :=
  match s with
  | EmptyString => false
  | String a s' => Ascii.eqb a c || contains_char c s'
  end.

(** The number that a string of decimal digits writes, read from the left
    with [acc] as the value of what was read before. *)
Fixpoint decimal_value (acc : Z) (s : string) : Z :=
  match s with
  | EmptyString => acc
  | String a s' => decimal_value (10 * acc + digit_value a) s'
  end.

Definition all_digits (s : string) : bool :=
  forallb is_digit (String.list_ascii_of_string s).

(** The product of the sizes of the slots, each counted with its wild
    type: Π (|slot_i| + 1). *)
Definition count_with_wild_types (lst : MutationSpace.slots) : Z :=
  math_prod ((fun x => Z.of_nat (length x) + 1) <$> lst).

(** An item of a dict whose key starts with a residue that its candidates do not hold. *)
Definition wild_type_excluded (item : string * string) : Prop :=
  ∃ w rest, item.1 = String w rest ∧ contains_char w item.2 = false.

(** A structure lookup for the examples that knows one file, and
    [{'A': 'C'}], the mapping that undoes [ex_rename]. *)
Definition ex_load_pdb (pdbfile : string) (model_id : Z) : result unit :=
  if bool_decide (pdbfile = "1abc.pdb") then Ok ()
  else Raise (KeyError pdbfile).

Definition ex_rename_back : gmap string string := {[ "A" := "C" ]}.

(** Three Affilib outputs, with a tab and with trailing newlines: one of
    two good rows, one whose residue list lacks the wild type, and one
    with a blank second row; and the structure they belong to: TYR at
    C 17, THR at A 20. *)
Definition ex_readlines (path : string) : result (list string) :=
  let tab := String (ascii_of_nat 9) EmptyString in
  let nl := String (ascii_of_nat 10) EmptyString in
  if bool_decide (path = "affilib.txt")
  then Ok ["17C" +:+ tab +:+ "YAG" +:+ nl; "20A TA" +:+ nl]
  else if bool_decide (path = "nowt.txt")
  then Ok ["20A TA" +:+ nl; "17C AG" +:+ nl]
  else if bool_decide (path = "blank.txt")
  then Ok ["17C YAG" +:+ nl; nl; "20A TA" +:+ nl]
  else Raise (KeyError path).

Definition ex_get_resname2 (model : unit) (chainid : string) (pos : Z)
    : result string :=
  if bool_decide (chainid = "C") && (pos =? 17) then Ok "TYR"
  else if bool_decide (chainid = "A") && (pos =? 20) then Ok "THR"
  else Raise (KeyError chainid).

(** The space of [ex_dct], and a space given by its slots, one of them
    empty. *)
Definition ex_space : MutationSpace.t :=
  {| MutationSpace.dct := Some ex_dct;
     MutationSpace.lst := MutationSpace._dict_to_list ex_dct;
     MutationSpace.n_pos := 2 |}.

(** A machine whose allocator grants arrays of a million words. *)
Definition ex_mem : Z := 1000000.

Definition ex_slot_space : MutationSpace.t :=
  {| MutationSpace.dct := None;
     MutationSpace.lst := [["YC17A"; "YC17G"]; []; ["TA20A"]];
     MutationSpace.n_pos := 3 |}.

(** * Properties *)

(** ** The result monad *)

Lemma bind_Ok {A B} (a : A) (k : A → result B) : (Ok a ≫= k) = k a.
Proof. reflexivity. Qed.

Lemma bind_Raise {A B} (e : exn) (k : A → result B) : (Raise e ≫= k) = Raise e.
Proof. reflexivity. Qed.

Lemma mapM_cons {A B} (f : A → result B) x l :
  mapM f (x :: l) = (y ← f x; ys ← mapM f l; Ok (y :: ys)).
Proof. reflexivity. Qed.

Lemma mapM_Ok {A B} (f : A → result B) l k :
  Forall2 (fun x y => f x = Ok y) l k → mapM f l = Ok k.
Proof.
  induction 1 as [|x y l k Hxy _ IH]; [reflexivity|].
  rewrite mapM_cons, Hxy, bind_Ok, IH. reflexivity.
Qed.

Lemma mapM_Ok_fmap {A B} (f : A → result B) (g : A → B) l :
  Forall (fun x => f x = Ok (g x)) l → mapM f l = Ok (g <$> l).
Proof.
  intros H. apply mapM_Ok. induction H; constructor; auto.
Qed.

(** The first element on which [f] raises decides, when [f] succeeds
    before it. *)
Lemma mapM_Raise {A B} (f : A → result B) l1 x l2 e :
  Forall (fun y => ∃ z, f y = Ok z) l1 → f x = Raise e →
  mapM f (l1 ++ x :: l2) = Raise e.
Proof.
  intros H Hx. induction H as [|y l1 [z Hz] _ IH]; simpl app.
  - rewrite mapM_cons, Hx. reflexivity.
  - rewrite mapM_cons, Hz, bind_Ok, IH. reflexivity.
Qed.

(** ** Strings *)

#[local] Arguments String.append : simpl nomatch.

Lemma append_nil_r s : s +:+ EmptyString = s.
Proof. induction s; simpl; congruence. Qed.

Lemma append_assoc s1 s2 s3 : (s1 +:+ s2) +:+ s3 = s1 +:+ s2 +:+ s3.
Proof. induction s1; simpl; congruence. Qed.

Lemma length_append s1 s2 :
  String.length (s1 +:+ s2) = (String.length s1 + String.length s2)%nat.
Proof. induction s1; simpl; congruence. Qed.

Lemma get_append_last s b t :
  String.get (String.length s) (s +:+ String b t) = Some b.
Proof. induction s; simpl; auto. Qed.

Lemma substring_append_prefix s t :
  String.substring 0 (String.length s) (s +:+ t) = s.
Proof.
  induction s as [|a s IH]; simpl.
  - destruct t; reflexivity.
  - rewrite IH. reflexivity.
Qed.

Lemma substring_all s : String.substring 0 (String.length s) s = s.
Proof.
  rewrite <- (append_nil_r s) at 2. apply substring_append_prefix.
Qed.

(** A non-empty string ends in a last character. *)
Lemma string_snoc a s : ∃ s' b, String a s = s' +:+ String b EmptyString.
Proof.
  revert a. induction s as [|c s IH]; intros a.
  - exists EmptyString, a. reflexivity.
  - destruct (IH c) as (s' & b & E). exists (String a s'), b.
    simpl. rewrite E. reflexivity.
Qed.

Lemma str_index_0 a s : str_index (String a s) 0 = Ok (String a EmptyString).
Proof.
  unfold str_index, str_len. simpl String.length.
  change (0 <? 0) with false. cbv iota.
  destruct (Z.leb_spec (Z.of_nat (S (String.length s))) 0); [lia|].
  reflexivity.
Qed.

Lemma str_index_1 a c s :
  str_index (String a (String c s)) 1 = Ok (String c EmptyString).
Proof.
  unfold str_index, str_len. simpl String.length.
  change (1 <? 0) with false. cbv iota.
  destruct (Z.leb_spec (Z.of_nat (S (S (String.length s)))) 1); [lia|].
  reflexivity.
Qed.

Lemma str_index_last s b :
  str_index (s +:+ String b EmptyString) (-1) = Ok (String b EmptyString).
Proof.
  unfold str_index, str_len. rewrite length_append. simpl String.length.
  change (-1 <? 0) with true. cbv iota.
  set (n := String.length s).
  replace (-1 + Z.of_nat (n + 1)) with (Z.of_nat n) by lia.
  destruct (Z.ltb_spec (Z.of_nat n) 0); [lia|].
  destruct (Z.leb_spec (Z.of_nat (n + 1)) (Z.of_nat n)); [lia|].
  simpl orb. cbv iota. rewrite Nat2Z.id. unfold n.
  rewrite get_append_last. reflexivity.
Qed.

(** [s[1:-1]] is what lies between the first and the last character. *)
Lemma str_slice_middle a mid b :
  str_slice (String a (mid +:+ String b EmptyString)) (Some 1) (Some (-1)) = mid.
Proof.
  unfold str_slice, slice_bound, str_len. simpl String.length.
  rewrite length_append. simpl String.length.
  set (n := String.length mid).
  change (1 <? 0) with false. change (-1 <? 0) with true. cbv iota.
  replace (Z.min 1 (Z.of_nat (S (n + 1)))) with 1 by lia.
  replace (Z.max 0 (-1 + Z.of_nat (S (n + 1))) - 1) with (Z.of_nat n) by lia.
  rewrite Nat2Z.id. change (Z.to_nat 1) with 1%nat. simpl String.substring.
  apply substring_append_prefix.
Qed.

(** [s[:1]] and [s[2:]] on a string of two characters or more. *)
Lemma str_slice_head a s :
  str_slice (String a s) None (Some 1) = String a EmptyString.
Proof.
  unfold str_slice, slice_bound, str_len. simpl String.length.
  change (1 <? 0) with false. cbv iota.
  replace (Z.min 1 (Z.of_nat (S (String.length s))) - 0) with 1 by lia.
  simpl. destruct s; reflexivity.
Qed.

Lemma str_slice_tail2 a c s :
  str_slice (String a (String c s)) (Some 2) None = s.
Proof.
  unfold str_slice, slice_bound, str_len. simpl String.length.
  change (2 <? 0) with false. cbv iota.
  replace (Z.min 2 (Z.of_nat (S (S (String.length s))))) with 2 by lia.
  replace (Z.of_nat (S (S (String.length s))) - 2)
    with (Z.of_nat (String.length s)) by lia.
  rewrite Nat2Z.id. change (Z.to_nat 2) with 2%nat. simpl String.substring.
  apply substring_all.
Qed.

(** [','.join(s.split(','))] gives [s] back. *)
Lemma split_nonempty c s : split c s ≠ [].
Proof.
  destruct s as [|a s]; simpl; [discriminate|].
  destruct (Ascii.eqb a c); [discriminate|].
  destruct (split c s); discriminate.
Qed.

Lemma join_cons_String c a h t :
  join (String c EmptyString) (String a h :: t)
  = String a (join (String c EmptyString) (h :: t)).
Proof. destruct t; reflexivity. Qed.

Lemma join_split c s : join (String c EmptyString) (split c s) = s.
Proof.
  induction s as [|a s IH]; [reflexivity|]. simpl split.
  destruct (Ascii.eqb_spec a c) as [->|Hne].
  - pose proof (split_nonempty c s) as Hs.
    destruct (split c s) as [|h t]; [congruence|].
    change (join (String c EmptyString) (EmptyString :: h :: t))
      with (String c (join (String c EmptyString) (h :: t))).
    rewrite IH. reflexivity.
  - pose proof (split_nonempty c s) as Hs.
    destruct (split c s) as [|h t]; [congruence|].
    rewrite join_cons_String, IH. reflexivity.
Qed.

(** ** Mutation: construction and string form *)

Lemma init_muttuple tup :
  Mutation.__init__ EmptyString tup = Ok {| Mutation.muttuple := tup |}.
Proof. reflexivity. Qed.

Lemma init_mutstr s :
  s ≠ EmptyString →
  Mutation.__init__ s []
  = Ok {| Mutation.muttuple := split "," (remove_char " " s) |}.
Proof.
  intros Hs. unfold Mutation.__init__.
  rewrite (bool_decide_eq_true_2 _ Hs). reflexivity.
Qed.

(** ** Mutation: revert *)

Lemma string_ends s :
  (2 ≤ String.length s)%nat →
  ∃ a mid b, s = String a (mid +:+ String b EmptyString).
Proof.
  destruct s as [|a [|c s]]; simpl; try lia. intros _.
  destruct (string_snoc c s) as (mid & b & E).
  exists a, mid, b. rewrite E. reflexivity.
Qed.

Lemma revert_single_swap a mid b :
  Mutation.revert_single (String a (mid +:+ String b EmptyString))
  = Ok (String b (mid +:+ String a EmptyString)).
Proof.
  unfold Mutation.revert_single.
  pose proof (str_index_last (String a mid) b) as Hl. simpl in Hl.
  rewrite Hl, bind_Ok, str_index_0, bind_Ok, str_slice_middle.
  reflexivity.
Qed.

Lemma swapped_ends_sym s s' : swapped_ends s s' → swapped_ends s' s.
Proof. intros (a & mid & b & -> & ->). exists b, mid, a. auto. Qed.

Lemma revert_single_swapped s s' :
  swapped_ends s s' → Mutation.revert_single s = Ok s'.
Proof. intros (a & mid & b & -> & ->). apply revert_single_swap. Qed.

Lemma point_mutation_length s :
  is_point_mutation s = true → (2 ≤ String.length s)%nat.
Proof.
  unfold is_point_mutation. intros H. apply andb_prop in H as [H _].
  apply Nat.leb_le in H. lia.
Qed.

Lemma swapped_ends_total l :
  Forall (fun s => (2 ≤ String.length s)%nat) l →
  ∃ k, Forall2 swapped_ends l k.
Proof.
  induction 1 as [|s l Hs _ [k IH]]; [exists []; constructor|].
  destruct (string_ends s Hs) as (a & mid & b & ->).
  exists (String b (mid +:+ String a EmptyString) :: k).
  constructor; [|assumption]. exists a, mid, b. auto.
Qed.

Lemma mapM_revert_single l k :
  Forall2 swapped_ends l k → mapM Mutation.revert_single l = Ok k.
Proof.
  intros H. apply mapM_Ok.
  eapply Forall2_impl; [exact H|]. apply revert_single_swapped.
Qed.

(** A constructor call leaves the objects of the store where they are, and
    returns a reference that none of them has. *)
Lemma new_fresh σ tup m :
  let σ' := σ ++ [m] in
  Mutation.__init__ EmptyString tup = Ok m →
  Mutation.new σ EmptyString tup = Ok (σ', length σ)
  ∧ σ' !! length σ = Some m
  ∧ (∀ i o, σ !! i = Some o → σ' !! i = Some o ∧ length σ ≠ i).
Proof.
  intros σ' Hm. unfold Mutation.new. rewrite Hm, bind_Ok.
  split; [reflexivity|]. split.
  - unfold σ'. apply list_lookup_middle. reflexivity.
  - intros i o Hi. pose proof (lookup_lt_Some _ _ _ Hi) as Hlt. split.
    + unfold σ'. rewrite lookup_app_l; assumption.
    + lia.
Qed.

(** C4. For a mutation whose point mutations all have the four-field
    format, [revert] succeeds and swaps the first and the last character
    of each point mutation, the middle staying as it is; reverting the
    result gives the stored sequence of the receiver back; and on objects,
    [revert] returns a reference to a new object and leaves the receiver,
    like every other object, unchanged. *)
Theorem revert_involution (m : Mutation.t) :
  Forall (fun s => is_point_mutation s = true) (Mutation.muttuple m) →
  ∃ m1, Mutation.revert m = Ok m1
    ∧ Forall2 swapped_ends (Mutation.muttuple m) (Mutation.muttuple m1)
    ∧ (∃ m2, Mutation.revert m1 = Ok m2
             ∧ Mutation.muttuple m2 = Mutation.muttuple m)
    ∧ ∀ (σ : Mutation.store) (self : nat), σ !! self = Some m →
        ∃ σ' r, Mutation.revert_ref σ self = Ok (σ', r)
          ∧ σ' !! r = Some m1 ∧ r ≠ self
          ∧ ∀ i o, σ !! i = Some o → σ' !! i = Some o.
Proof.
  intros Hfmt.
  assert (Hlen : Forall (fun s => (2 ≤ String.length s)%nat)
                   (Mutation.muttuple m)).
  { eapply Forall_impl; [exact Hfmt|]. apply point_mutation_length. }
  destruct (swapped_ends_total _ Hlen) as [k Hk].
  pose proof (mapM_revert_single _ _ Hk) as Hfwd.
  assert (Hbwd : mapM Mutation.revert_single k = Ok (Mutation.muttuple m)).
  { apply mapM_revert_single. apply Forall2_flip.
    eapply Forall2_impl; [exact Hk|]. apply swapped_ends_sym. }
  exists {| Mutation.muttuple := k |}. repeat split.
  - unfold Mutation.revert. rewrite Hfwd, bind_Ok. apply init_muttuple.
  - exact Hk.
  - exists {| Mutation.muttuple := Mutation.muttuple m |}. split; [|reflexivity].
    unfold Mutation.revert. simpl Mutation.muttuple.
    rewrite Hbwd, bind_Ok. apply init_muttuple.
  - intros σ self Hself.
    destruct (new_fresh σ k _ (init_muttuple k)) as (Hnew & Hr & Hold).
    exists (σ ++ [{| Mutation.muttuple := k |}]), (length σ).
    unfold Mutation.revert_ref. rewrite Hself, Hfwd, bind_Ok.
    split; [exact Hnew|]. split; [exact Hr|]. split.
    + apply (Hold self m Hself).
    + intros i o Hi. apply (Hold i o Hi).
Qed.

Lemma revert_involution_witness :
  ∃ m1, Mutation.revert ex_mutation = Ok m1
    ∧ Forall2 swapped_ends (Mutation.muttuple ex_mutation) (Mutation.muttuple m1)
    ∧ (∃ m2, Mutation.revert m1 = Ok m2
             ∧ Mutation.muttuple m2 = Mutation.muttuple ex_mutation)
    ∧ ∀ (σ : Mutation.store) (self : nat), σ !! self = Some ex_mutation →
        ∃ σ' r, Mutation.revert_ref σ self = Ok (σ', r)
          ∧ σ' !! r = Some m1 ∧ r ≠ self
          ∧ ∀ i o, σ !! i = Some o → σ' !! i = Some o.
Proof.
  apply (revert_involution ex_mutation). repeat constructor.
Defined.

(** The example of the docstring: YC17T -> TC17Y. *)
Example revert_YC17T :
  Mutation.revert {| Mutation.muttuple := ["YC17T"] |}
  = Ok {| Mutation.muttuple := ["TC17Y"] |}.
Proof. reflexivity. Qed.

(** ** Mutation: the string form *)

Lemma remove_char_space_subset s :
  (∀ a, a ∈ String.list_ascii_of_string s → is_space a = true → a = " "%char) →
  remove_whitespace s = remove_char " " s.
Proof.
  induction s as [|a s IH]; intros H; [reflexivity|]. simpl.
  assert (Hs : remove_whitespace s = remove_char " " s).
  { apply IH. intros b Hb. apply H. simpl. right. exact Hb. }
  destruct (is_space a) eqn:Ha.
  - rewrite (H a); [|simpl; left|exact Ha].
    rewrite Ascii.eqb_refl. exact Hs.
  - destruct (Ascii.eqb_spec a " "%char) as [->|_]; [discriminate Ha|].
    rewrite Hs. reflexivity.
Qed.

(** C8, as the code has it. For every non-empty [s], the constructor in
    its string form stores the sequence obtained by removing the space
    characters of [s] (and no other whitespace) and splitting the rest on
    commas; the string form of the result is [s] without its spaces; and
    when the space is the only whitespace character in [s], this is [s]
    with all whitespace removed. *)
Theorem init_mutstr_removes_spaces (s : string) :
  s ≠ EmptyString →
  ∃ m, Mutation.__init__ s [] = Ok m
    ∧ Mutation.muttuple m = split "," (remove_char " " s)
    ∧ Mutation.__str__ m = remove_char " " s
    ∧ ((∀ a, a ∈ String.list_ascii_of_string s → is_space a = true →
             a = " "%char) →
       Mutation.muttuple m = split "," (remove_whitespace s)
       ∧ Mutation.__str__ m = remove_whitespace s).
Proof.
  intros Hs. eexists. split; [apply (init_mutstr s Hs)|].
  unfold Mutation.__str__. simpl Mutation.muttuple.
  split; [reflexivity|]. split; [apply join_split|].
  intros Hsp. rewrite (remove_char_space_subset s Hsp).
  split; [reflexivity|apply join_split].
Qed.

Lemma init_mutstr_removes_spaces_witness :
  ∃ m, Mutation.__init__ "YC17T, TA20A" [] = Ok m
    ∧ Mutation.muttuple m = split "," (remove_char " " "YC17T, TA20A")
    ∧ Mutation.__str__ m = remove_char " " "YC17T, TA20A"
    ∧ ((∀ a, a ∈ String.list_ascii_of_string "YC17T, TA20A" →
             is_space a = true → a = " "%char) →
       Mutation.muttuple m = split "," (remove_whitespace "YC17T, TA20A")
       ∧ Mutation.__str__ m = remove_whitespace "YC17T, TA20A").
Proof.
  apply (init_mutstr_removes_spaces "YC17T, TA20A"). discriminate.
Defined.

(** C8, as the specification words it, fails on a TAB: the string
    ["YC17T,\tTA20A"] is not empty and contains whitespace, yet the stored
    sequence keeps the TAB, and so does the string form. *)
Lemma init_mutstr_keeps_tab :
  tabbed_mutstr ≠ EmptyString
  ∧ has_whitespace tabbed_mutstr = true
  ∧ Mutation.__init__ tabbed_mutstr []
    = Ok {| Mutation.muttuple := ["YC17T"; String (ascii_of_nat 9) "TA20A"] |}
  ∧ split "," (remove_whitespace tabbed_mutstr) = ["YC17T"; "TA20A"]
  ∧ Mutation.__init__ tabbed_mutstr []
    ≠ Ok {| Mutation.muttuple := split "," (remove_whitespace tabbed_mutstr) |}
  ∧ Mutation.__str__
      {| Mutation.muttuple := ["YC17T"; String (ascii_of_nat 9) "TA20A"] |}
    ≠ remove_whitespace tabbed_mutstr.
Proof.
  repeat split; try reflexivity; vm_compute; discriminate.
Qed.

(** ** Mutation: rename_chains *)

Lemma rename_chains_single_eq a c rest dct :
  Mutation.rename_chains_single (String a (String c rest)) dct
  = match dct !! String c EmptyString with
    | Some v => Ok (String a (v +:+ rest))
    | None => Raise (KeyError (String c EmptyString))
    end.
Proof.
  unfold Mutation.rename_chains_single, Mutation.dict_getitem.
  rewrite str_index_1, bind_Ok.
  destruct (dct !! String c EmptyString) as [v|]; [|reflexivity].
  rewrite bind_Ok, str_slice_head, str_slice_tail2. reflexivity.
Qed.

Lemma chain_id_Some s :
  is_Some (chain_id s) → ∃ a c rest, s = String a (String c rest).
Proof.
  destruct s as [|a [|c rest]]; intros [k Hk]; try discriminate Hk. eauto.
Qed.

(** Either every chain id is mapped and the whole tuple is renamed, or the
    [KeyError] of the first unmapped chain id comes out. *)
Lemma mapM_rename_chains_single dct l :
  Forall (fun s => is_Some (chain_id s)) l →
  (∃ k, Forall2 (renamed dct) l k
        ∧ mapM (fun mut => Mutation.rename_chains_single mut dct) l = Ok k)
  ∨ (∃ key s, mapM (fun mut => Mutation.rename_chains_single mut dct) l
              = Raise (KeyError key)
              ∧ dct !! key = None ∧ s ∈ l ∧ chain_id s = Some key).
Proof.
  induction 1 as [|s l Hs _ IH].
  - left. exists []. split; [constructor|reflexivity].
  - destruct (chain_id_Some s Hs) as (a & c & rest & ->).
    rewrite mapM_cons, rename_chains_single_eq.
    destruct (dct !! String c EmptyString) as [v|] eqn:Hc.
    + rewrite bind_Ok. destruct IH as [(k & Hk & ->)|(key & s & -> & Hn & Hin & Hid)].
      * left. exists (String a (v +:+ rest) :: k). split; [|reflexivity].
        constructor; [|exact Hk]. exists a, c, rest, v. auto.
      * right. exists key, s. repeat split; auto. by right.
    + right. exists (String c EmptyString), (String a (String c rest)).
      repeat split; auto. by left.
Qed.

Lemma renamed_mapped dct l k s c :
  Forall2 (renamed dct) l k → s ∈ l → chain_id s = Some c → is_Some (dct !! c).
Proof.
  induction 1 as [|x y l k Hxy _ IH]; intros Hin Hid.
  - by apply elem_of_nil in Hin.
  - apply elem_of_cons in Hin as [->|Hin]; [|auto].
    destruct Hxy as (a & c' & rest & v & -> & Hv & _).
    simpl in Hid. injection Hid as <-. eauto.
Qed.

(** C7, as the code has it. Let every point mutation of [m] have a chain
    id (a second character). If the mapping has an entry for each of these
    chain ids,
    [rename_chains] returns a new Mutation in which the second character of
    every point mutation is replaced by the value the mapping gives for it,
    the rest staying as it is, and the receiver is not changed; if some
    chain id has no entry, [rename_chains] raises [KeyError], on a chain id
    of [m] that the mapping lacks. With [{'C': 'A'}], "YC17T" becomes
    "YA17T". *)
Theorem rename_chains_spec (m : Mutation.t) (dct : gmap string string) :
  Forall (fun s => is_Some (chain_id s)) (Mutation.muttuple m) →
  ((∀ s c, s ∈ Mutation.muttuple m → chain_id s = Some c → is_Some (dct !! c)) →
   ∃ m', Mutation.rename_chains m dct = Ok m'
     ∧ Forall2 (renamed dct) (Mutation.muttuple m) (Mutation.muttuple m')
     ∧ ∀ (σ : Mutation.store) (self : nat), σ !! self = Some m →
         ∃ σ' r, Mutation.rename_chains_ref σ self dct = Ok (σ', r)
           ∧ σ' !! r = Some m' ∧ r ≠ self
           ∧ ∀ i o, σ !! i = Some o → σ' !! i = Some o)
  ∧ ((∃ s c, s ∈ Mutation.muttuple m ∧ chain_id s = Some c ∧ dct !! c = None) →
     ∃ key s, Mutation.rename_chains m dct = Raise (KeyError key)
       ∧ dct !! key = None
       ∧ s ∈ Mutation.muttuple m ∧ chain_id s = Some key)
  ∧ Mutation.rename_chains {| Mutation.muttuple := ["YC17T"] |} ex_rename
    = Ok {| Mutation.muttuple := ["YA17T"] |}.
Proof.
  intros Hid. split; [|split; [|reflexivity]].
  - intros Hall.
    destruct (mapM_rename_chains_single dct _ Hid)
      as [(k & Hk & Hm)|(key & s & _ & Hn & Hin & Hs)].
    + exists {| Mutation.muttuple := k |}. split; [|split; [exact Hk|]].
      * unfold Mutation.rename_chains. rewrite Hm, bind_Ok.
        apply init_muttuple.
      * intros σ self Hself.
        destruct (new_fresh σ k _ (init_muttuple k)) as (Hnew & Hr & Hold).
        exists (σ ++ [{| Mutation.muttuple := k |}]), (length σ).
        unfold Mutation.rename_chains_ref. rewrite Hself, Hm, bind_Ok.
        split; [exact Hnew|]. split; [exact Hr|]. split.
        -- apply (Hold self m Hself).
        -- intros i o Hi. apply (Hold i o Hi).
    + destruct (Hall s key Hin Hs) as [v Hv]. congruence.
  - intros (s & c & Hin & Hs & Hn).
    destruct (mapM_rename_chains_single dct _ Hid)
      as [(k & Hk & _)|(key & s' & Hm & Hn' & Hin' & Hs')].
    + destruct (renamed_mapped dct _ k s c Hk Hin Hs) as [v Hv]. congruence.
    + exists key, s'. split; [|auto].
      unfold Mutation.rename_chains. rewrite Hm. reflexivity.
Qed.

Lemma rename_chains_spec_witness :
  Forall (fun s => is_Some (chain_id s)) (Mutation.muttuple ex_mutation)
  ∧ ∃ key s, Mutation.rename_chains ex_mutation ex_rename = Raise (KeyError key)
      ∧ ex_rename !! key = None
      ∧ s ∈ Mutation.muttuple ex_mutation ∧ chain_id s = Some key.
Proof.
  assert (H : Forall (fun s => is_Some (chain_id s))
                (Mutation.muttuple ex_mutation)).
  { repeat constructor; eexists; reflexivity. }
  split; [exact H|].
  apply (rename_chains_spec ex_mutation ex_rename H).
  exists "TA20A", "A". split; [|split; reflexivity].
  right. left.
Defined.

(** C7, as it is worded, for every Mutation, fails on the mutation of the
    string 'T,TA20A' with the empty mapping: the chain id A of 'TA20A' has
    no entry, yet what [rename_chains] raises is the [IndexError] of 'T',
    which has no second character, and no [KeyError]. *)
Lemma rename_chains_raises_IndexError :
  Mutation.__init__ "T,TA20A" [] = Ok {| Mutation.muttuple := ["T"; "TA20A"] |}
  ∧ chain_id "TA20A" = Some "A"
  ∧ (∅ : gmap string string) !! "A" = None
  ∧ Mutation.rename_chains {| Mutation.muttuple := ["T"; "TA20A"] |} ∅
    = Raise IndexError
  ∧ Mutation.rename_chains {| Mutation.muttuple := ["T"; "TA20A"] |} ∅
    ≠ Raise (KeyError "A").
Proof.
  split; [reflexivity|]. split; [reflexivity|]. split; [reflexivity|].
  split; [reflexivity|]. vm_compute. discriminate.
Qed.

(** ** Mutation: is_mutation_reversed *)

Lemma list_getitem_0 {A} (x : A) l : list_getitem (x :: l) 0 = Ok x.
Proof.
  unfold list_getitem. simpl length. change (0 <? 0) with false. cbv iota.
  destruct (Z.leb_spec (Z.of_nat (S (length l))) 0); [lia|]. reflexivity.
Qed.

Lemma parse_fields_Ok mut wtres chainid pos mutres :
  Mutation.parse_fields mut = Ok (wtres, chainid, pos, mutres) →
  str_index mut 0 = Ok wtres ∧ str_index mut 1 = Ok chainid
  ∧ py_int (str_slice mut (Some 2) (Some (-1))) = Ok pos
  ∧ str_index mut (-1) = Ok mutres.
Proof.
  unfold Mutation.parse_fields.
  destruct (str_index mut 0) as [w|]; [|discriminate]. rewrite bind_Ok.
  destruct (str_index mut 1) as [c|]; [|discriminate]. rewrite bind_Ok.
  destruct (py_int _) as [p|]; [|discriminate]. rewrite bind_Ok.
  destruct (str_index mut (-1)) as [r|]; [|discriminate]. rewrite bind_Ok.
  intros [= -> -> -> ->]. auto.
Qed.

Section is_mutation_reversed.
Context (Model : Type) (get_model : string → Z → result Model)
  (get_resname : Model → string → Z → result string)
  (three_to_one : string → result string).

Local Abbreviation reversed :=
  (Mutation.is_mutation_reversed Model get_model get_resname three_to_one).

(** The tail of the tuple plays no part, whatever happens. *)
Lemma is_mutation_reversed_head mut rest rest' pdbfile model_id :
  reversed {| Mutation.muttuple := mut :: rest |} pdbfile model_id
  = reversed {| Mutation.muttuple := mut :: rest' |} pdbfile model_id.
Proof.
  unfold Mutation.is_mutation_reversed, verbose. simpl Mutation.muttuple.
  rewrite !list_getitem_0. reflexivity.
Qed.

(** C6. Let [mut] be the first point mutation of the tuple, with declared
    wild type [mut[0]], chain [mut[1]], position [int(mut[2:-1])] and
    declared mutant [mut[-1]], and let the structure lookup give the
    residue [observed] at that chain and position. Then the call returns
    [False] if [observed] is the declared wild type, else [True] if it is
    the declared mutant, and raises the [ValueError] "neither forward nor
    reverse" in every other case; and the result is the same for every
    tail of the tuple. *)
Theorem is_mutation_reversed_spec mut rest pdbfile model_id
    wtres chainid pos mutres model resname observed :
  Mutation.parse_fields mut = Ok (wtres, chainid, pos, mutres) →
  get_model pdbfile model_id = Ok model →
  get_resname model chainid pos = Ok resname →
  three_to_one resname = Ok observed →
  (str_index mut 0 = Ok wtres ∧ str_index mut 1 = Ok chainid
   ∧ str_index mut (-1) = Ok mutres)
  ∧ reversed {| Mutation.muttuple := mut :: rest |} pdbfile model_id
    = (if bool_decide (observed = wtres) then Ok false
       else if bool_decide (observed = mutres) then Ok true
       else Raise (ValueError (NeitherForwardNorReverse mut)))
  ∧ (observed = wtres →
     reversed {| Mutation.muttuple := mut :: rest |} pdbfile model_id
     = Ok false)
  ∧ (observed ≠ wtres → observed = mutres →
     reversed {| Mutation.muttuple := mut :: rest |} pdbfile model_id
     = Ok true)
  ∧ (observed ≠ wtres → observed ≠ mutres →
     reversed {| Mutation.muttuple := mut :: rest |} pdbfile model_id
     = Raise (ValueError (NeitherForwardNorReverse mut)))
  ∧ ∀ rest',
      reversed {| Mutation.muttuple := mut :: rest' |} pdbfile model_id
      = reversed {| Mutation.muttuple := mut :: rest |} pdbfile model_id.
Proof.
  intros Hparse Hmodel Hres Hone.
  assert (Hcall :
    reversed {| Mutation.muttuple := mut :: rest |} pdbfile model_id
    = (if bool_decide (observed = wtres) then Ok false
       else if bool_decide (observed = mutres) then Ok true
       else Raise (ValueError (NeitherForwardNorReverse mut)))).
  { unfold Mutation.is_mutation_reversed, verbose. simpl Mutation.muttuple.
    rewrite list_getitem_0, bind_Ok, Hparse, bind_Ok.
    rewrite Hmodel, bind_Ok, Hres, bind_Ok, Hone, bind_Ok. reflexivity. }
  destruct (parse_fields_Ok _ _ _ _ _ Hparse) as (H0 & H1 & _ & Hl).
  split; [auto|]. split; [exact Hcall|]. rewrite Hcall.
  split; [|split; [|split]].
  - intros Hw. rewrite (bool_decide_eq_true_2 _ Hw). reflexivity.
  - intros Hw Hm. rewrite (bool_decide_eq_false_2 _ Hw).
    rewrite (bool_decide_eq_true_2 _ Hm). reflexivity.
  - intros Hw Hm. rewrite (bool_decide_eq_false_2 _ Hw).
    rewrite (bool_decide_eq_false_2 _ Hm). reflexivity.
  - intros rest'. rewrite <- Hcall. apply is_mutation_reversed_head.
Qed.

End is_mutation_reversed.

Lemma is_mutation_reversed_spec_witness :
  Mutation.is_mutation_reversed unit ex_get_model ex_get_resname
    ex_three_to_one ex_mutation "1abc.pdb" 0 = Ok false
  ∧ Mutation.is_mutation_reversed unit ex_get_model ex_get_resname
      ex_three_to_one {| Mutation.muttuple := ["TC17Y"; "TA20A"] |}
      "1abc.pdb" 0 = Ok true
  ∧ Mutation.is_mutation_reversed unit ex_get_model ex_get_resname
      ex_three_to_one {| Mutation.muttuple := ["AC17T"] |} "1abc.pdb" 0
    = Raise (ValueError (NeitherForwardNorReverse "AC17T")).
Proof.
  split; [|split].
  - eapply (is_mutation_reversed_spec unit ex_get_model ex_get_resname
              ex_three_to_one "YC17T" ["TA20A"] "1abc.pdb" 0
              "Y" "C" 17 "T" () "TYR" "Y"); reflexivity.
  - eapply (is_mutation_reversed_spec unit ex_get_model ex_get_resname
              ex_three_to_one "TC17Y" ["TA20A"] "1abc.pdb" 0
              "T" "C" 17 "Y" () "TYR" "Y");
      solve [reflexivity | discriminate].
  - eapply (is_mutation_reversed_spec unit ex_get_model ex_get_resname
              ex_three_to_one "AC17T" [] "1abc.pdb" 0
              "A" "C" 17 "T" () "TYR" "Y");
      solve [reflexivity | discriminate].
Defined.

(** ** itertools: combinations and product *)

Lemma combinations_0 {A} (l : list A) : combinations l 0 = [[]].
Proof. destruct l; reflexivity. Qed.

Lemma combinations_fmap {A B} (f : A → B) (l : list A) r :
  combinations (f <$> l) r = fmap (M:=list) f <$> combinations l r.
Proof.
  revert r. induction l as [|x l IH]; intros [|r]; try reflexivity.
  simpl. rewrite !IH, fmap_app, <- !list_fmap_compose. reflexivity.
Qed.

Lemma combinations_Forall {A} (P : A → Prop) l r :
  Forall P l → Forall (Forall P) (combinations l r).
Proof.
  intros H. revert r. induction H as [|x l Hx _ IH]; intros [|r]; simpl;
    try (repeat constructor; fail).
  apply Forall_app. split; [|apply IH].
  apply Forall_fmap. eapply Forall_impl; [apply IH|].
  intros c Hc. simpl. constructor; assumption.
Qed.

(** There is no combination of more elements than the list has. *)
Lemma combinations_short {A} (l : list A) r :
  (length l < r)%nat → combinations l r = [].
Proof.
  revert r. induction l as [|x l IH]; intros [|r] Hr; simpl in *;
    try lia; try reflexivity.
  rewrite !IH by lia. reflexivity.
Qed.

Lemma length_bind_fmap_cons {A} (l : list A) (L : list (list A)) :
  length (x ← l; cons x <$> L) = (length l * length L)%nat.
Proof.
  induction l as [|x l IH]; [reflexivity|].
  rewrite bind_cons, length_app, length_fmap, IH. reflexivity.
Qed.

(** The product has as many tuples as the product of the sizes says. *)
Lemma length_itertools_product {A} (ls : list (list A)) :
  Z.of_nat (length (itertools_product ls))
  = math_prod ((fun x => Z.of_nat (length x)) <$> ls).
Proof.
  induction ls as [|l ls IH]; [reflexivity|].
  simpl itertools_product. rewrite length_bind_fmap_cons, Nat2Z.inj_mul, IH.
  reflexivity.
Qed.

Lemma range_0 n : range 0 (Z.of_nat n) = Z.of_nat <$> seq 0 n.
Proof.
  unfold range. rewrite Z.sub_0_r, Nat2Z.id. reflexivity.
Qed.

Lemma fmap_nth_seq {A} (d : A) (pre l : list A) :
  (fun i => nth i (pre ++ l) d) <$> seq (length pre) (length l) = l.
Proof.
  revert pre. induction l as [|x l IH]; intros pre; [reflexivity|].
  simpl. f_equal.
  - rewrite app_nth2 by lia. rewrite Nat.sub_diag. reflexivity.
  - specialize (IH (pre ++ [x])).
    rewrite length_app, <- app_assoc in IH. simpl in IH.
    rewrite Nat.add_1_r in IH. exact IH.
Qed.

Lemma list_getitem_nat {A} (d : A) (l : list A) (i : nat) :
  (i < length l)%nat → list_getitem l (Z.of_nat i) = Ok (nth i l d).
Proof.
  intros Hi. unfold list_getitem.
  destruct (Z.ltb_spec (Z.of_nat i) 0); [lia|].
  destruct (Z.ltb_spec (Z.of_nat i) 0); [lia|].
  destruct (Z.leb_spec (Z.of_nat (length l)) (Z.of_nat i)); [lia|].
  simpl orb. cbv iota. rewrite Nat2Z.id.
  destruct (l !! i) as [x|] eqn:Hx.
  - rewrite (nth_lookup_Some _ _ d _ Hx). reflexivity.
  - apply lookup_ge_None in Hx. lia.
Qed.

(** ** MutationSpace: the constructor *)

Lemma init_dct dct :
  MutationSpace.__init__ (Some dct) None
  = Ok {| MutationSpace.dct := Some dct;
          MutationSpace.lst := MutationSpace._dict_to_list dct;
          MutationSpace.n_pos :=
            Z.of_nat (length (MutationSpace._dict_to_list dct)) |}.
Proof. reflexivity. Qed.

Lemma init_lst lst :
  MutationSpace.__init__ None (Some lst)
  = Ok {| MutationSpace.dct := None;
          MutationSpace.lst := lst;
          MutationSpace.n_pos := Z.of_nat (length lst) |}.
Proof. reflexivity. Qed.

(** The invariant of the constructor: [n_pos] is the number of slots. *)
Lemma init_n_pos dct lst self :
  MutationSpace.__init__ dct lst = Ok self →
  MutationSpace.n_pos self = Z.of_nat (length (MutationSpace.lst self)).
Proof.
  destruct dct as [d|], lst as [l|]; try discriminate;
    intros [= <-]; reflexivity.
Qed.

(** ** MutationSpace: size *)

Lemma size_inner_mapM (lst : MutationSpace.slots) (comb : list nat) :
  Forall (fun i => (i < length lst)%nat) comb →
  mapM (fun i => x ← list_getitem lst i; Ok (Z.of_nat (length x)))
       (Z.of_nat <$> comb)
  = Ok ((fun x => Z.of_nat (length x)) <$> ((fun i => nth i lst []) <$> comb)).
Proof.
  intros H. rewrite <- list_fmap_compose. apply mapM_Ok.
  induction H as [|i comb Hi _ IH]; constructor; [|exact IH].
  rewrite (list_getitem_nat [] lst i Hi). reflexivity.
Qed.

Lemma count_choices_cons c L :
  count_choices (c :: L)
  = math_prod ((fun x => Z.of_nat (length x)) <$> c) + count_choices L.
Proof. reflexivity. Qed.

(** The loop of [size] over index combinations adds up the products of the
    sizes of the slots these indices select. *)
Lemma size_loop (lst : MutationSpace.slots) (ics : list (list nat)) acc :
  Forall (Forall (fun i => (i < length lst)%nat)) ics →
  for_each
    (fun retval comb =>
       lens ← mapM (fun i => x ← list_getitem lst i;
                               Ok (Z.of_nat (length x))) comb;
       Ok (retval + math_prod lens))
    (fmap (M:=list) Z.of_nat <$> ics) acc
  = Ok (acc + count_choices (fmap (M:=list) (fun i => nth i lst []) <$> ics)).
Proof.
  intros H. revert acc. induction H as [|c ics Hc _ IH]; intros acc.
  - simpl. f_equal. unfold count_choices. simpl. lia.
  - rewrite !fmap_cons. simpl for_each.
    rewrite (size_inner_mapM lst c Hc), !bind_Ok, IH, count_choices_cons.
    f_equal. lia.
Qed.

(** *** What itertools.combinations refuses *)

Lemma ssize_t_max_eq : ssize_t_max = 9223372036854775807.
Proof. reflexivity. Qed.

Lemma alloc_max_bounds mem : alloc_max mem ≤ mem ∧ alloc_max mem < ssize_t_max.
Proof.
  unfold alloc_max. change pymem_max_words with 1152921504606846975.
  rewrite ssize_t_max_eq. lia.
Qed.

(** A degree within the pool, or within what the allocator grants, is
    accepted. *)
Lemma combinations_refusal_none mem n r :
  0 ≤ r → r ≤ n ∨ r ≤ alloc_max mem → combinations_refusal mem n r = None.
Proof.
  intros H0 Hr. unfold combinations_refusal.
  destruct (Z.ltb_spec r 0); [lia|].
  destruct (Z.leb_spec r n); [reflexivity|].
  pose proof (alloc_max_bounds mem) as [_ Hmax].
  destruct (Z.ltb_spec ssize_t_max r); [lia|].
  destruct (Z.ltb_spec (alloc_max mem) r); [lia|]. reflexivity.
Qed.

(** Beyond the pool and beyond what the allocator grants, the degree is
    refused: [MemoryError] while it fits a C [ssize_t], [OverflowError]
    from there on. *)
Lemma combinations_refusal_beyond mem n r :
  0 ≤ n → n < r → alloc_max mem < r →
  combinations_refusal mem n r
  = Some (if ssize_t_max <? r then OverflowError else MemoryError).
Proof.
  intros Hn Hr Hmem. unfold combinations_refusal.
  destruct (Z.ltb_spec r 0); [lia|].
  destruct (Z.leb_spec r n); [lia|].
  destruct (Z.ltb_spec ssize_t_max r); [reflexivity|].
  destruct (Z.ltb_spec (alloc_max mem) r); [reflexivity|lia].
Qed.

Lemma combinations_refusal_negative mem n r :
  r < 0 →
  combinations_refusal mem n r
  = Some (if r <? - ssize_t_max - 1 then OverflowError
          else ValueError NegativeR).
Proof.
  intros Hr. unfold combinations_refusal.
  destruct (Z.ltb_spec r 0); [reflexivity|lia].
Qed.

(** [size] at a degree other than 0: what [itertools.combinations]
    refuses it raises, and otherwise it counts the choices. *)
Lemma size_of_degree_nonzero mem self d wt :
  d ≠ 0 →
  MutationSpace.size_of_degree mem self d wt
  = match combinations_refusal mem
            (Z.of_nat (length (MutationSpace.lst self))) d with
    | Some e => Raise e
    | None =>
        Ok ((if wt then 1 else 0)
            + count_choices
                (combinations (MutationSpace.lst self) (Z.to_nat d)))
    end.
Proof.
  intros Hd. unfold MutationSpace.size_of_degree, itertools_combinations.
  destruct (Z.eqb_spec d 0); [lia|].
  rewrite range_0, length_fmap, length_seq.
  destruct (combinations_refusal _ _ d); [reflexivity|].
  rewrite bind_Ok, combinations_fmap, size_loop.
  - rewrite <- combinations_fmap.
    pose proof (fmap_nth_seq [] [] (MutationSpace.lst self)) as Hn.
    simpl in Hn. rewrite Hn. reflexivity.
  - apply combinations_Forall, Forall_forall.
    intros i Hi. apply elem_of_seq in Hi. lia.
Qed.

(** [size] at a positive degree that [itertools.combinations] accepts, in
    closed form. *)
Lemma size_of_degree_pos mem self d wt :
  0 < d →
  d ≤ Z.of_nat (length (MutationSpace.lst self)) ∨ d ≤ alloc_max mem →
  MutationSpace.size_of_degree mem self d wt
  = Ok ((if wt then 1 else 0)
        + count_choices (combinations (MutationSpace.lst self) (Z.to_nat d))).
Proof.
  intros Hd Hacc. rewrite size_of_degree_nonzero by lia.
  rewrite combinations_refusal_none by (auto; lia). reflexivity.
Qed.

(** ** MutationSpace: construct *)

Lemma length_joined_product lst placeholder :
  length (MutationSpace.joined_product lst placeholder)
  = length (itertools_product
              (if placeholder then (fun x => x ++ [EmptyString]) <$> lst
               else lst)).
Proof.
  unfold MutationSpace.joined_product. rewrite !length_fmap. reflexivity.
Qed.

(** The sentinel call on the slots of one combination. *)
Lemma full_space_sentinel self :
  MutationSpace.full_space self (Some (-1))
  = Ok (MutationSpace.joined_product (MutationSpace.lst self) false).
Proof. reflexivity. Qed.

(** The loop of [construct] over slot combinations concatenates the
    products of the combinations, in their order. *)
Lemma construct_loop (combs : list MutationSpace.slots) acc :
  for_each
    (fun retval comb =>
       sub ← MutationSpace.__init__ None (Some comb);
       part ← MutationSpace.full_space sub (Some (-1));
       Ok (retval ++ part))
    combs acc
  = Ok (acc ++ concat ((fun c => MutationSpace.joined_product c false) <$> combs)).
Proof.
  revert acc. induction combs as [|c combs IH]; intros acc.
  - simpl. rewrite app_nil_r. reflexivity.
  - cbn [for_each].
    rewrite init_lst, bind_Ok, full_space_sentinel, !bind_Ok, IH.
    cbn [MutationSpace.lst].
    rewrite fmap_cons. simpl concat. rewrite app_assoc. reflexivity.
Qed.

(** [construct] at a degree other than 0 and the sentinel -1: what
    [itertools.combinations] refuses it raises, and otherwise it lists the
    products of the combinations. *)
Lemma construct_nonzero mem self d :
  d ≠ 0 → d ≠ -1 →
  MutationSpace.construct mem self (Some d) None
  = match combinations_refusal mem
            (Z.of_nat (length (MutationSpace.lst self))) d with
    | Some e => Raise e
    | None =>
        Ok (concat ((fun c => MutationSpace.joined_product c false)
                    <$> combinations (MutationSpace.lst self) (Z.to_nat d)))
    end.
Proof.
  intros Hd Hs. unfold MutationSpace.construct, itertools_combinations.
  rewrite bool_decide_eq_false_2 by (intros H; apply H; reflexivity).
  rewrite bool_decide_eq_false_2 by (intros [= ->]; lia).
  rewrite bool_decide_eq_true_2 by exact Hs.
  destruct (combinations_refusal _ _ d); [reflexivity|].
  rewrite bind_Ok, construct_loop. reflexivity.
Qed.

(** [construct] at a positive degree that [itertools.combinations]
    accepts, in closed form. *)
Lemma construct_pos mem self d :
  0 < d →
  d ≤ Z.of_nat (length (MutationSpace.lst self)) ∨ d ≤ alloc_max mem →
  MutationSpace.construct mem self (Some d) None
  = Ok (concat ((fun c => MutationSpace.joined_product c false)
                <$> combinations (MutationSpace.lst self) (Z.to_nat d))).
Proof.
  intros Hd Hacc. rewrite construct_nonzero by lia.
  rewrite combinations_refusal_none by (auto; lia). reflexivity.
Qed.

Lemma length_concat_joined (combs : list MutationSpace.slots) :
  Z.of_nat (length (concat ((fun c => MutationSpace.joined_product c false)
                            <$> combs)))
  = count_choices combs.
Proof.
  induction combs as [|c combs IH]; [reflexivity|].
  rewrite fmap_cons. simpl concat.
  rewrite length_app, Nat2Z.inj_add, IH, count_choices_cons.
  rewrite length_joined_product, length_itertools_product. reflexivity.
Qed.

(** C1. For a space built from a dict and a degree [d] between 0 and
    [n_pos], [construct(d)] returns a list and [size(d)], without the wild
    type, returns its length; [construct(0)] is the empty list and
    [size(0)] is 0. *)
Theorem construct_length_is_size (mem : Z) (dct : MutationSpace.dict)
    (self : MutationSpace.t) (d : Z) :
  MutationSpace.__init__ (Some dct) None = Ok self →
  0 ≤ d ≤ MutationSpace.n_pos self →
  (∃ l, MutationSpace.construct mem self (Some d) None = Ok l
        ∧ MutationSpace.size mem self (Some d) false = Ok (Z.of_nat (length l)))
  ∧ MutationSpace.construct mem self (Some 0) None = Ok []
  ∧ MutationSpace.size mem self (Some 0) false = Ok 0.
Proof.
  intros Hinit [Hd Hn]. apply init_n_pos in Hinit.
  split; [|split; reflexivity].
  destruct (Z.eq_dec d 0) as [->|Hne].
  - exists []. split; reflexivity.
  - eexists. split; [apply construct_pos; lia|].
    simpl MutationSpace.size. rewrite size_of_degree_pos by lia.
    rewrite length_concat_joined. reflexivity.
Qed.

Lemma construct_length_is_size_witness :
  (∃ l, MutationSpace.construct ex_mem ex_space (Some 2) None = Ok l
        ∧ MutationSpace.size ex_mem ex_space (Some 2) false
          = Ok (Z.of_nat (length l)))
  ∧ MutationSpace.construct ex_mem ex_space (Some 0) None = Ok []
  ∧ MutationSpace.size ex_mem ex_space (Some 0) false = Ok 0.
Proof.
  apply (construct_length_is_size ex_mem ex_dct ex_space 2);
    [reflexivity|simpl; lia].
Defined.

(** C2, as the code has it. At every positive degree at which [size]
    returns, the wild-type flag adds 1 to the count: [size(d, wt=True)] is
    [size(d, wt=False) + 1]. It returns at every degree up to [n_pos],
    and beyond as far as the allocator grants the index array of
    [itertools.combinations]; where that refuses the degree, both calls
    raise its exception. *)
Theorem size_wt_adds_one (mem : Z) (dct : option MutationSpace.dict)
    (lst : option MutationSpace.slots) (self : MutationSpace.t) (d : Z) :
  MutationSpace.__init__ dct lst = Ok self →
  0 < d →
  ((∃ k, MutationSpace.size mem self (Some d) false = Ok k
         ∧ MutationSpace.size mem self (Some d) true = Ok (k + 1))
   ∨ (∃ e, MutationSpace.size mem self (Some d) false = Raise e
           ∧ MutationSpace.size mem self (Some d) true = Raise e))
  ∧ (d ≤ MutationSpace.n_pos self ∨ d ≤ alloc_max mem →
     ∃ k, MutationSpace.size mem self (Some d) false = Ok k
          ∧ MutationSpace.size mem self (Some d) true = Ok (k + 1)).
Proof.
  intros Hinit Hd. apply init_n_pos in Hinit. simpl MutationSpace.size.
  split.
  - rewrite !size_of_degree_nonzero by lia.
    destruct (combinations_refusal _ _ d) as [e|].
    + right. exists e. split; reflexivity.
    + left. eexists. split; [reflexivity|]. f_equal. lia.
  - intros Hacc. rewrite !size_of_degree_pos by (try assumption; lia).
    eexists. split; [reflexivity|]. f_equal. lia.
Qed.

Lemma size_wt_adds_one_witness :
  ((∃ k, MutationSpace.size ex_mem ex_space (Some 1) false = Ok k
         ∧ MutationSpace.size ex_mem ex_space (Some 1) true = Ok (k + 1))
   ∨ (∃ e, MutationSpace.size ex_mem ex_space (Some 1) false = Raise e
           ∧ MutationSpace.size ex_mem ex_space (Some 1) true = Raise e))
  ∧ (1 ≤ MutationSpace.n_pos ex_space ∨ 1 ≤ alloc_max ex_mem →
     ∃ k, MutationSpace.size ex_mem ex_space (Some 1) false = Ok k
          ∧ MutationSpace.size ex_mem ex_space (Some 1) true = Ok (k + 1)).
Proof.
  apply (size_wt_adds_one ex_mem (Some ex_dct) None ex_space 1);
    [reflexivity|lia].
Defined.

(** C2, as the specification words it, fails at degree 1 on the space of
    [{'YC17': 'AG', 'TA20': 'A'}]: the count is 3 without the flag and 4
    with it. *)
Lemma size_wt_differs_at_degree_1 :
  ∃ self, MutationSpace.__init__ (Some ex_dct) None = Ok self
    ∧ MutationSpace.size ex_mem self (Some 1) false = Ok 3
    ∧ MutationSpace.size ex_mem self (Some 1) true = Ok 4
    ∧ MutationSpace.size ex_mem self (Some 1) true
      ≠ MutationSpace.size ex_mem self (Some 1) false.
Proof.
  eexists. split; [reflexivity|]. repeat split; try reflexivity.
  vm_compute. discriminate.
Qed.

(** C10, as the code has it. Above [n_pos] there is no combination of
    slot indices: as far as the allocator grants the index array of
    [itertools.combinations], [size] raises nothing and returns 0, or 1
    when the wild type is counted. Beyond that it raises, with or without
    the flag: [MemoryError] while the degree fits a C [ssize_t],
    [OverflowError] from [2**63] on. *)
Theorem size_above_n_pos (mem : Z) (dct : option MutationSpace.dict)
    (lst : option MutationSpace.slots) (self : MutationSpace.t) (d : Z)
    (wt : bool) :
  MutationSpace.__init__ dct lst = Ok self →
  MutationSpace.n_pos self < d →
  (d ≤ alloc_max mem →
   MutationSpace.size mem self (Some d) false = Ok 0
   ∧ MutationSpace.size mem self (Some d) true = Ok 1)
  ∧ (alloc_max mem < d → d ≤ ssize_t_max →
     MutationSpace.size mem self (Some d) wt = Raise MemoryError)
  ∧ (ssize_t_max < d →
     MutationSpace.size mem self (Some d) wt = Raise OverflowError).
Proof.
  intros Hinit Hd. apply init_n_pos in Hinit.
  simpl MutationSpace.size. split; [|split].
  - intros Hmem. rewrite !size_of_degree_pos by (auto; lia).
    rewrite combinations_short by lia. split; reflexivity.
  - intros Hmem Hfit. rewrite size_of_degree_nonzero by lia.
    rewrite combinations_refusal_beyond by lia.
    destruct (Z.ltb_spec ssize_t_max d); [lia|reflexivity].
  - intros Hbig. pose proof (alloc_max_bounds mem) as [_ Hmax].
    rewrite size_of_degree_nonzero by lia.
    rewrite combinations_refusal_beyond by lia.
    destruct (Z.ltb_spec ssize_t_max d); [reflexivity|lia].
Qed.

Lemma size_above_n_pos_witness :
  (3 ≤ alloc_max ex_mem →
   MutationSpace.size ex_mem ex_space (Some 3) false = Ok 0
   ∧ MutationSpace.size ex_mem ex_space (Some 3) true = Ok 1)
  ∧ (alloc_max ex_mem < 3 → 3 ≤ ssize_t_max →
     MutationSpace.size ex_mem ex_space (Some 3) true = Raise MemoryError)
  ∧ (ssize_t_max < 3 →
     MutationSpace.size ex_mem ex_space (Some 3) true = Raise OverflowError).
Proof.
  apply (size_above_n_pos ex_mem (Some ex_dct) None ex_space 3 true);
    [reflexivity|simpl; lia].
Defined.

(** C10, as it is worded, fails at degree [2**63] on the space of
    [{'YC17': 'AG', 'TA20': 'A'}], where [n_pos] is 2:
    [itertools.combinations] cannot convert the degree to a C [ssize_t]
    and [size] raises [OverflowError]. *)
Lemma size_raises_at_2_pow_63 :
  ∃ self, MutationSpace.__init__ (Some ex_dct) None = Ok self
    ∧ MutationSpace.n_pos self < 2 ^ 63
    ∧ MutationSpace.size ex_mem self (Some (2 ^ 63)) false
      = Raise OverflowError
    ∧ MutationSpace.size ex_mem self (Some (2 ^ 63)) false ≠ Ok 0
    ∧ MutationSpace.size ex_mem self (Some (2 ^ 63)) true
      = Raise OverflowError.
Proof.
  eexists. split; [reflexivity|]. split; [reflexivity|].
  split; [reflexivity|]. split; [discriminate|reflexivity].
Qed.

(** C9. With neither a dict nor a slot list, the constructor fails:
    [self.lst] stays [None] and [len(None)] is a [TypeError]; no object, and
    so no empty space, comes out. *)
Theorem init_without_arguments_fails :
  py_len (A := list string) None = Raise TypeError
  ∧ MutationSpace.__init__ None None = Raise TypeError
  ∧ ∀ self, MutationSpace.__init__ None None ≠ Ok self.
Proof.
  split; [reflexivity|]. split; [reflexivity|]. intros self. discriminate.
Qed.

(** ** MutationSpace: the full space and its identity entry *)

Lemma append_nonempty s t : s ≠ EmptyString → s +:+ t ≠ EmptyString.
Proof. destruct s; [congruence|discriminate]. Qed.

Lemma join_cons_nonempty sep e l :
  e ≠ EmptyString → join sep (e :: l) ≠ EmptyString.
Proof.
  intros He. destruct l; simpl; [exact He|]. apply append_nonempty, He.
Qed.

(** The slots of a dict hold no empty string: each entry is a key followed
    by one character. *)
Lemma dict_to_list_nonempty dct :
  Forall (Forall (fun s => s ≠ EmptyString)) (MutationSpace._dict_to_list dct).
Proof.
  unfold MutationSpace._dict_to_list. apply Forall_fmap, Forall_forall.
  intros [pref mts] _. simpl. apply Forall_fmap, Forall_forall.
  intros mt _. simpl. destruct pref; discriminate.
Qed.

(** With the placeholder appended, the strings of the first slot come
    first, each followed by what the other slots give, and the strings that
    leave the first slot at its wild type come last. *)
Lemma joined_product_cons x (lst : MutationSpace.slots) :
  Forall (fun s => s ≠ EmptyString) x →
  MutationSpace.joined_product (x :: lst) true
  = (e ← x;
     (fun m => join "," (e :: filter (fun s => s ≠ EmptyString) m))
     <$> itertools_product ((fun x => x ++ [EmptyString]) <$> lst))
    ++ MutationSpace.joined_product lst true.
Proof.
  intros Hx. unfold MutationSpace.joined_product.
  rewrite fmap_cons. simpl itertools_product.
  set (P := itertools_product ((fun x => x ++ [EmptyString]) <$> lst)).
  rewrite bind_app, bind_singleton, !fmap_app. f_equal.
  - clear -Hx. induction Hx as [|e x He _ IH]; [reflexivity|].
    rewrite !bind_cons, !fmap_app, IH. f_equal.
    rewrite <- !list_fmap_compose. apply list_fmap_ext.
    intros _ m _. simpl. rewrite filter_cons_True by exact He. reflexivity.
  - rewrite <- !list_fmap_compose. apply list_fmap_ext.
    intros _ m _. simpl. rewrite filter_cons_False; [reflexivity|].
    intros H. apply H. reflexivity.
Qed.

Lemma filter_none {A} (P : A → Prop) `{∀ x, Decision (P x)} (l : list A) :
  Forall (fun x => ¬ P x) l → filter P l = [].
Proof.
  induction 1 as [|x l Hx _ IH]; [reflexivity|].
  rewrite filter_cons_False by exact Hx. exact IH.
Qed.

(** Exactly one string of the product is empty: the pure wild type. *)
Lemma joined_product_one_identity (lst : MutationSpace.slots) :
  Forall (Forall (fun s => s ≠ EmptyString)) lst →
  length (filter (fun s => s = EmptyString)
            (MutationSpace.joined_product lst true)) = 1%nat.
Proof.
  induction 1 as [|x lst Hx _ IH]; [reflexivity|].
  rewrite (joined_product_cons x lst Hx), filter_app, length_app, IH.
  rewrite filter_none; [reflexivity|].
  apply Forall_forall. intros s Hs.
  apply list_elem_of_bind in Hs as (e & Hs & He).
  apply list_elem_of_fmap in Hs as (m & -> & _).
  apply join_cons_nonempty. rewrite Forall_forall in Hx. apply Hx, He.
Qed.

(** [remove] on a list with one occurrence leaves none. *)
Lemma list_remove_one x l :
  length (filter (fun s => s = x) l) = 1%nat →
  ∃ l', list_remove x l = Ok l' ∧ (x ∉ l') ∧ length l = S (length l').
Proof.
  induction l as [|y l IH]; [discriminate|]. simpl list_remove.
  destruct (decide (y = x)) as [->|Hne].
  - rewrite filter_cons_True by reflexivity. simpl. intros [= Hl].
    rewrite bool_decide_eq_true_2 by reflexivity.
    exists l. split; [reflexivity|]. split; [|reflexivity].
    intros Hin. apply length_zero_iff_nil in Hl.
    eapply filter_nil_not_elem_of; [exact Hl| |exact Hin]. reflexivity.
  - rewrite filter_cons_False by exact Hne. intros Hl.
    rewrite bool_decide_eq_false_2 by exact Hne.
    destruct (IH Hl) as (l' & -> & Hnot & Hlen).
    exists (y :: l'). split; [reflexivity|]. split; [|simpl; lia].
    intros Hin. apply elem_of_cons in Hin as [->|Hin]; [congruence|auto].
Qed.

(** C5. For a space built from a dict, the product over the slots with
    their appended placeholders has exactly one empty string, the pure wild
    type; [construct()] returns that list without it, and the returned list
    holds no empty string. *)
Theorem construct_full_no_identity (mem : Z) (dct : MutationSpace.dict)
    (self : MutationSpace.t) :
  MutationSpace.__init__ (Some dct) None = Ok self →
  length (filter (fun s => s = EmptyString)
            (MutationSpace.joined_product (MutationSpace.lst self) true))
  = 1%nat
  ∧ ∃ l, MutationSpace.construct mem self None None = Ok l
      ∧ list_remove EmptyString
          (MutationSpace.joined_product (MutationSpace.lst self) true) = Ok l
      ∧ (EmptyString ∉ l)
      ∧ length (MutationSpace.joined_product (MutationSpace.lst self) true)
        = S (length l).
Proof.
  rewrite init_dct. intros [= <-]. simpl MutationSpace.lst.
  pose proof (joined_product_one_identity _ (dict_to_list_nonempty dct)) as H1.
  split; [exact H1|].
  destruct (list_remove_one _ _ H1) as (l & Hl & Hnot & Hlen).
  exists l. split; [exact Hl|]. split; [exact Hl|]. split; assumption.
Qed.

Lemma construct_full_no_identity_witness :
  length (filter (fun s => s = EmptyString)
            (MutationSpace.joined_product (MutationSpace.lst ex_space) true))
  = 1%nat
  ∧ ∃ l, MutationSpace.construct ex_mem ex_space None None = Ok l
      ∧ list_remove EmptyString
          (MutationSpace.joined_product (MutationSpace.lst ex_space) true)
        = Ok l
      ∧ (EmptyString ∉ l)
      ∧ length (MutationSpace.joined_product (MutationSpace.lst ex_space) true)
        = S (length l).
Proof.
  apply (construct_full_no_identity ex_mem ex_dct ex_space). reflexivity.
Defined.

(** C3. The space of [{'YC17': 'AG', 'TA20': 'A'}]: its slots, its sizes
    and its lists at degree 1 and 2, in the order of the combinations and,
    inside a combination, of the product. The last equation shows that
    order on two slots of two entries: the right-most slot varies
    fastest. *)
Theorem example_space (mem : Z) :
  ∃ self, MutationSpace.__init__ (Some ex_dct) None = Ok self
    ∧ MutationSpace.lst self = [["YC17A"; "YC17G"]; ["TA20A"]]
    ∧ MutationSpace.size mem self (Some 1) false = Ok 3
    ∧ MutationSpace.size mem self (Some 2) false = Ok 2
    ∧ MutationSpace.size mem self None false = Ok 5
    ∧ MutationSpace.construct mem self (Some 1) None
      = Ok ["YC17A"; "YC17G"; "TA20A"]
    ∧ MutationSpace.construct mem self (Some 2) None
      = Ok ["YC17A,TA20A"; "YC17G,TA20A"]
    ∧ (self' ← MutationSpace.__init__
                 (Some [("YC17", "AG"); ("TA20", "AC")]) None;
       MutationSpace.construct mem self' (Some 2) None)
      = Ok ["YC17A,TA20A"; "YC17A,TA20C"; "YC17G,TA20A"; "YC17G,TA20C"].
Proof.
  eexists. split; [reflexivity|]. repeat split; vm_compute; reflexivity.
Qed.

(** * Further properties *)

(** ** Mutation: revert on any string *)

Lemma length_snoc s b :
  String.length (s +:+ String b EmptyString) = S (String.length s).
Proof. rewrite length_append. simpl. lia. Qed.

(** On every string of two characters or more, formatted or not,
    [revert_single] swaps the ends, keeps the length, and undoes itself. *)
Theorem revert_single_involutive (s : string) :
  (2 ≤ String.length s)%nat →
  ∃ s', Mutation.revert_single s = Ok s'
    ∧ swapped_ends s s'
    ∧ String.length s' = String.length s
    ∧ Mutation.revert_single s' = Ok s.
Proof.
  intros Hs. destruct (string_ends s Hs) as (a & mid & b & ->).
  exists (String b (mid +:+ String a EmptyString)).
  split; [apply revert_single_swap|]. split; [exists a, mid, b; auto|].
  split; [|apply revert_single_swap].
  simpl. rewrite !length_snoc. reflexivity.
Qed.

Lemma revert_single_involutive_witness :
  ∃ s', Mutation.revert_single "x-y" = Ok s'
    ∧ swapped_ends "x-y" s'
    ∧ String.length s' = String.length "x-y"
    ∧ Mutation.revert_single s' = Ok "x-y".
Proof. apply (revert_single_involutive "x-y"). simpl. lia. Defined.

(** Below two characters the swap breaks down: the empty string raises
    [IndexError], and a one-character string comes back doubled, so that
    reverting a mutation twice does not give it back. *)
Theorem revert_single_short (a : ascii) :
  Mutation.revert_single EmptyString = Raise IndexError
  ∧ Mutation.revert_single (String a EmptyString)
    = Ok (String a (String a EmptyString))
  ∧ (m1 ← Mutation.revert {| Mutation.muttuple := [String a EmptyString] |};
     Mutation.revert m1)
    = Ok {| Mutation.muttuple := [String a (String a EmptyString)] |}.
Proof.
  assert (H1 : Mutation.revert_single (String a EmptyString)
               = Ok (String a (String a EmptyString))) by reflexivity.
  assert (H2 : Mutation.revert_single (String a (String a EmptyString))
               = Ok (String a (String a EmptyString))).
  { apply (revert_single_swap a EmptyString a). }
  split; [reflexivity|]. split; [exact H1|].
  assert (M1 : mapM Mutation.revert_single [String a EmptyString]
               = Ok [String a (String a EmptyString)]).
  { apply mapM_Ok. constructor; [exact H1|constructor]. }
  assert (M2 : mapM Mutation.revert_single [String a (String a EmptyString)]
               = Ok [String a (String a EmptyString)]).
  { apply mapM_Ok. constructor; [exact H2|constructor]. }
  unfold Mutation.revert. simpl Mutation.muttuple.
  rewrite M1, bind_Ok, init_muttuple, bind_Ok. simpl Mutation.muttuple.
  rewrite M2, bind_Ok. apply init_muttuple.
Qed.

Lemma revert_single_nonempty s :
  s ≠ EmptyString → ∃ s', Mutation.revert_single s = Ok s'.
Proof.
  destruct s as [|a [|c s]]; [congruence| |]; intros _.
  - eexists. reflexivity.
  - destruct (revert_single_involutive (String a (String c s)))
      as (s' & H & _); [simpl; lia|]. eauto.
Qed.

(** [mapM] over a function that fails with one exception [e], exactly
    outside [P]. *)
Lemma mapM_total_or_raise {A B} (f : A → result B) (P : A → Prop) e l :
  (∀ x, P x → ∃ y, f x = Ok y) → (∀ x, ¬ P x → f x = Raise e) →
  (∀ x, Decision (P x)) →
  (Forall P l ∧ ∃ k, mapM f l = Ok k ∧ length k = length l)
  ∨ (Exists (fun x => ¬ P x) l ∧ mapM f l = Raise e).
Proof.
  intros Hok Hbad Hdec. induction l as [|x l IH].
  - left. split; [constructor|]. exists []. split; reflexivity.
  - rewrite mapM_cons. destruct (Hdec x) as [Hx|Hx].
    + destruct (Hok x Hx) as [y ->]. rewrite bind_Ok.
      destruct IH as [(Hl & k & -> & Hk)|(Hl & ->)].
      * left. split; [constructor; assumption|].
        exists (y :: k). split; [reflexivity|]. simpl. congruence.
      * right. split; [apply Exists_cons_tl, Hl|reflexivity].
    + right. split; [apply Exists_cons_hd, Hx|].
      rewrite (Hbad x Hx). reflexivity.
Qed.

(** [revert] succeeds exactly when no point mutation is the empty string;
    it then keeps the number of point mutations. Otherwise it raises
    [IndexError]. *)
Theorem revert_succeeds_iff (m : Mutation.t) :
  (Forall (fun s => s ≠ EmptyString) (Mutation.muttuple m) →
   ∃ m', Mutation.revert m = Ok m'
     ∧ length (Mutation.muttuple m') = length (Mutation.muttuple m))
  ∧ (Exists (fun s => s = EmptyString) (Mutation.muttuple m) →
     Mutation.revert m = Raise IndexError).
Proof.
  destruct (mapM_total_or_raise Mutation.revert_single
              (fun s => s ≠ EmptyString) IndexError (Mutation.muttuple m))
    as [(Hall & k & Hk & Hlen)|(Hex & Hr)].
  - apply revert_single_nonempty.
  - intros s Hs. destruct s; [reflexivity|]. exfalso. apply Hs. discriminate.
  - intros s. apply _.
  - split.
    + intros _. exists {| Mutation.muttuple := k |}. split; [|exact Hlen].
      unfold Mutation.revert. rewrite Hk. reflexivity.
    + intros Hex. exfalso. apply Exists_exists in Hex as (s & Hin & ->).
      rewrite Forall_forall in Hall. apply (Hall EmptyString Hin). reflexivity.
  - split.
    + intros Hall. exfalso. apply Exists_exists in Hex as (s & Hin & Hs).
      rewrite Forall_forall in Hall. apply Hs. apply (Hall s Hin).
    + intros _. unfold Mutation.revert. rewrite Hr. reflexivity.
Qed.

(** ** Mutation: from the string form and back *)

Lemma contains_char_append c s t :
  contains_char c (s +:+ t) = contains_char c s || contains_char c t.
Proof.
  induction s as [|a s IH]; [reflexivity|]. simpl.
  rewrite IH, orb_assoc. reflexivity.
Qed.

Lemma remove_char_absent c s :
  contains_char c s = false → remove_char c s = s.
Proof.
  induction s as [|a s IH]; [reflexivity|]. simpl.
  intros H. apply orb_false_iff in H as [Ha Hs].
  rewrite Ha, (IH Hs). reflexivity.
Qed.

Lemma contains_char_join c sep l :
  contains_char c sep = false →
  Forall (fun s => contains_char c s = false) l →
  contains_char c (join sep l) = false.
Proof.
  intros Hsep. induction 1 as [|x l Hx Hl IH]; [reflexivity|].
  destruct l as [|y l]; [exact Hx|].
  change (join sep (x :: y :: l)) with (x +:+ sep +:+ join sep (y :: l)).
  rewrite !contains_char_append, Hx, Hsep, IH. reflexivity.
Qed.

Lemma split_absent c s : contains_char c s = false → split c s = [s].
Proof.
  induction s as [|a s IH]; [reflexivity|]. simpl.
  intros H. apply orb_false_iff in H as [Ha Hs].
  rewrite Ha, (IH Hs). reflexivity.
Qed.

Lemma split_append_sep c x rest :
  contains_char c x = false →
  split c (x +:+ String c rest) = x :: split c rest.
Proof.
  induction x as [|a x IH]; simpl.
  - intros _. rewrite Ascii.eqb_refl. reflexivity.
  - intros H. apply orb_false_iff in H as [Ha Hx].
    rewrite Ha, (IH Hx). reflexivity.
Qed.

Lemma split_join c l :
  l ≠ [] → Forall (fun s => contains_char c s = false) l →
  split c (join (String c EmptyString) l) = l.
Proof.
  intros Hne H. induction H as [|x l Hx Hl IH]; [congruence|].
  destruct l as [|y l]; [apply split_absent, Hx|].
  change (join (String c EmptyString) (x :: y :: l))
    with (x +:+ String c (join (String c EmptyString) (y :: l))).
  rewrite split_append_sep by exact Hx. rewrite IH by discriminate.
  reflexivity.
Qed.

(** Printing a mutation and constructing one from the print gives the
    mutation back, when its point mutations hold neither comma nor space
    and the print is not empty. *)
Theorem init_of_str (m : Mutation.t) :
  Mutation.__str__ m ≠ EmptyString →
  Forall (fun s => contains_char "," s = false ∧ contains_char " " s = false)
    (Mutation.muttuple m) →
  Mutation.__init__ (Mutation.__str__ m) [] = Ok m.
Proof.
  destruct m as [tup]. unfold Mutation.__str__. simpl Mutation.muttuple.
  intros Hne Hall. rewrite init_mutstr by exact Hne. do 2 f_equal.
  assert (tup ≠ []) as Htup by (intros ->; apply Hne; reflexivity).
  rewrite remove_char_absent.
  - apply split_join; [exact Htup|].
    eapply Forall_impl; [exact Hall|]. intros s [H _]. exact H.
  - apply contains_char_join; [reflexivity|].
    eapply Forall_impl; [exact Hall|]. intros s [_ H]. exact H.
Qed.

Lemma init_of_str_witness :
  Mutation.__init__ (Mutation.__str__ ex_mutation) [] = Ok ex_mutation.
Proof.
  apply (init_of_str ex_mutation).
  - discriminate.
  - repeat constructor.
Defined.

(** The print of the empty mutation and of the mutation whose one point
    mutation is empty is the empty string, from which the constructor
    makes the empty mutation: the second is not given back. *)
Example init_of_str_empty :
  Mutation.__str__ {| Mutation.muttuple := [EmptyString] |} = EmptyString
  ∧ Mutation.__init__ EmptyString [] = Ok {| Mutation.muttuple := [] |}.
Proof. split; reflexivity. Qed.

(** ** int() on decimal digits *)

Lemma is_digit_cases a :
  is_digit a = true →
  a ∈ ["0"; "1"; "2"; "3"; "4"; "5"; "6"; "7"; "8"; "9"]%char.
Proof.
  unfold is_digit. intros H. apply andb_prop in H as [H1 H2].
  apply Nat.leb_le in H1, H2. rewrite <- (ascii_nat_embedding a).
  set (n := nat_of_ascii a) in *.
  assert (Hn : n ∈ seq 48 10) by (apply elem_of_seq; lia).
  simpl in Hn. clearbody n.
  repeat (apply elem_of_cons in Hn as [->|Hn]; [set_solver|]).
  by apply elem_of_nil in Hn.
Qed.

Lemma is_digit_not_space a : is_digit a = true → is_int_space a = false.
Proof.
  intros H. apply is_digit_cases in H.
  repeat (apply elem_of_cons in H as [->|H]; [reflexivity|]).
  by apply elem_of_nil in H.
Qed.

Lemma digit_value_range a : is_digit a = true → 0 ≤ digit_value a ≤ 9.
Proof.
  unfold is_digit, digit_value. intros H. apply andb_prop in H as [H1 H2].
  apply Nat.leb_le in H1, H2. lia.
Qed.

Lemma all_digits_cons a s :
  all_digits (String a s) = is_digit a && all_digits s.
Proof. reflexivity. Qed.

Lemma int_rstrip_digits s : all_digits s = true → int_rstrip s = s.
Proof.
  induction s as [|a s IH]; [reflexivity|]. rewrite all_digits_cons.
  intros H. apply andb_prop in H as [Ha Hs]. simpl. rewrite (IH Hs).
  destruct s; [|reflexivity]. rewrite (is_digit_not_space a Ha). reflexivity.
Qed.

Lemma int_strip_digits s : all_digits s = true → int_strip s = s.
Proof.
  intros H. unfold int_strip. destruct s as [|a s]; [reflexivity|].
  pose proof H as H'. rewrite all_digits_cons in H'.
  apply andb_prop in H' as [Ha _]. simpl int_lstrip.
  rewrite (is_digit_not_space a Ha). apply int_rstrip_digits, H.
Qed.

Lemma int_digits_all prev acc s :
  all_digits s = true → s ≠ EmptyString ∨ prev = true →
  int_digits prev acc s = Some (decimal_value acc s).
Proof.
  revert prev acc. induction s as [|a s IH]; intros prev acc Hs Hne.
  - destruct Hne as [Hne| ->]; [congruence|reflexivity].
  - rewrite all_digits_cons in Hs. apply andb_prop in Hs as [Ha Hs].
    simpl. rewrite Ha. apply IH; auto.
Qed.

Lemma count_digits_all s :
  all_digits s = true → count_digits s = String.length s.
Proof.
  induction s as [|a s IH]; [reflexivity|]. rewrite all_digits_cons.
  intros H. apply andb_prop in H as [Ha Hs]. simpl.
  rewrite Ha, (IH Hs). reflexivity.
Qed.

Lemma decimal_value_nonneg acc s :
  all_digits s = true → 0 ≤ acc → 0 ≤ decimal_value acc s.
Proof.
  revert acc. induction s as [|a s IH]; intros acc Hs Hacc; [exact Hacc|].
  rewrite all_digits_cons in Hs. apply andb_prop in Hs as [Ha Hs].
  simpl. apply IH; [exact Hs|]. pose proof (digit_value_range a Ha). lia.
Qed.

(** [int] of a non-empty string of decimal digits is the number they
    write, up to the limit on the number of digits, beyond which it is a
    [ValueError]. *)
Lemma py_int_digits s :
  s ≠ EmptyString → all_digits s = true →
  py_int s
  = if int_max_str_digits <? Z.of_nat (String.length s)
    then Raise (ValueError (IntMaxStrDigits (String.length s)))
    else Ok (decimal_value 0 s).
Proof.
  intros Hne Hs. unfold py_int. rewrite (int_strip_digits s Hs).
  pose proof (int_digits_all false 0 s Hs (or_introl Hne)) as Hi.
  pose proof (count_digits_all s Hs) as Hc.
  destruct s as [|a t]; [congruence|].
  pose proof Hs as Ha. rewrite all_digits_cons in Ha.
  apply andb_prop in Ha as [Ha _]. apply is_digit_cases in Ha.
  repeat (apply elem_of_cons in Ha as [->|Ha];
          [cbv beta iota zeta; rewrite Hi, Hc; reflexivity|]).
  by apply elem_of_nil in Ha.
Qed.

(** ** Mutation: parse_single *)

Lemma str_slice_position w c p mt :
  str_slice (String w (String c (p +:+ String mt EmptyString)))
    (Some 2) (Some (-1)) = p.
Proof.
  unfold str_slice, slice_bound, str_len. simpl String.length.
  rewrite length_append. simpl String.length.
  set (n := String.length p).
  change (2 <? 0) with false. change (-1 <? 0) with true. cbv iota.
  replace (Z.min 2 (Z.of_nat (S (S (n + 1))))) with 2 by lia.
  replace (Z.max 0 (-1 + Z.of_nat (S (S (n + 1)))) - 2) with (Z.of_nat n)
    by lia.
  rewrite Nat2Z.id. change (Z.to_nat 2) with 2%nat. simpl String.substring.
  apply substring_append_prefix.
Qed.

(** The four fields of a string of three characters or more. *)
Lemma parse_fields_form w c p mt :
  Mutation.parse_fields (String w (String c (p +:+ String mt EmptyString)))
  = (pos ← py_int p;
     Ok (String w EmptyString, String c EmptyString, pos,
         String mt EmptyString)).
Proof.
  unfold Mutation.parse_fields.
  rewrite str_index_0, bind_Ok, str_index_1, bind_Ok, str_slice_position.
  pose proof (str_index_last (String w (String c p)) mt) as Hl. simpl in Hl.
  rewrite Hl. destruct (py_int p); reflexivity.
Qed.

Lemma string_form3 s :
  (3 ≤ String.length s)%nat →
  ∃ w c p mt, s = String w (String c (p +:+ String mt EmptyString)).
Proof.
  destruct s as [|w [|c [|a s]]]; simpl; try lia. intros _.
  destruct (string_snoc a s) as (p & mt & E).
  exists w, c, p, mt. rewrite E. reflexivity.
Qed.

(** On a point mutation of the four-field format whose position has no
    more digits than [int()] accepts (4300), [parse_single] returns the
    first character, the second character, the number that the digits in
    between write, which is not negative, and the last character. With
    more digits it raises the [ValueError] of [int()] on the limit. *)
Theorem parse_single_point_mutation (s : string) :
  is_point_mutation s = true →
  ∃ w c p mt,
    s = String w (String c (p +:+ String mt EmptyString))
    ∧ p ≠ EmptyString ∧ all_digits p = true
    ∧ 0 ≤ decimal_value 0 p
    ∧ (Z.of_nat (String.length p) ≤ int_max_str_digits →
       Mutation.parse_single s
       = Ok (Some (String w EmptyString, String c EmptyString,
                   decimal_value 0 p, String mt EmptyString)))
    ∧ (int_max_str_digits < Z.of_nat (String.length p) →
       Mutation.parse_single s
       = Raise (ValueError (IntMaxStrDigits (String.length p)))).
Proof.
  unfold is_point_mutation. intros H. apply andb_prop in H as [Hlen Hdig].
  apply Nat.leb_le in Hlen.
  destruct (string_form3 s) as (w & c & p & mt & ->); [lia|].
  rewrite str_slice_position in Hdig. fold (all_digits p) in Hdig.
  assert (Hp : p ≠ EmptyString).
  { intros ->. simpl in Hlen. lia. }
  exists w, c, p, mt.
  split; [reflexivity|]. split; [exact Hp|]. split; [exact Hdig|].
  split; [apply decimal_value_nonneg; [exact Hdig|lia]|].
  unfold Mutation.parse_single. simpl Nat.eqb.
  rewrite parse_fields_form, (py_int_digits p Hp Hdig).
  split; intros Hn.
  - destruct (Z.ltb_spec int_max_str_digits (Z.of_nat (String.length p)));
      [lia|reflexivity].
  - destruct (Z.ltb_spec int_max_str_digits (Z.of_nat (String.length p)));
      [reflexivity|lia].
Qed.

Lemma parse_single_point_mutation_witness :
  ∃ w c p mt,
    "YC17T" = String w (String c (p +:+ String mt EmptyString))
    ∧ p ≠ EmptyString ∧ all_digits p = true
    ∧ 0 ≤ decimal_value 0 p
    ∧ (Z.of_nat (String.length p) ≤ int_max_str_digits →
       Mutation.parse_single "YC17T"
       = Ok (Some (String w EmptyString, String c EmptyString,
                   decimal_value 0 p, String mt EmptyString)))
    ∧ (int_max_str_digits < Z.of_nat (String.length p) →
       Mutation.parse_single "YC17T"
       = Raise (ValueError (IntMaxStrDigits (String.length p)))).
Proof. apply (parse_single_point_mutation "YC17T"). reflexivity. Defined.

(** Below four characters [parse_single] gives no fields: four [None]s on
    the empty string, [IndexError] on one character (there is no chain
    id), and the [ValueError] of [int('')] on two or three characters (the
    position is empty). *)
Theorem parse_single_short (a b c : ascii) :
  Mutation.parse_single EmptyString = Ok None
  ∧ Mutation.parse_single (String a EmptyString) = Raise IndexError
  ∧ Mutation.parse_single (String a (String b EmptyString))
    = Raise (ValueError (InvalidIntLiteral EmptyString))
  ∧ Mutation.parse_single (String a (String b (String c EmptyString)))
    = Raise (ValueError (InvalidIntLiteral EmptyString)).
Proof. repeat split; reflexivity. Qed.

(** Whenever the fields of a point mutation parse, so do those of its
    reversal, with wild type and mutant exchanged and chain and position
    as they were. *)
Theorem parse_fields_revert (s : string) wtres chainid pos mutres :
  Mutation.parse_fields s = Ok (wtres, chainid, pos, mutres) →
  ∃ s', Mutation.revert_single s = Ok s'
    ∧ Mutation.parse_fields s' = Ok (mutres, chainid, pos, wtres).
Proof.
  intros H.
  destruct (le_lt_dec 3 (String.length s)) as [Hlen|Hlen].
  - destruct (string_form3 s Hlen) as (w & c & p & mt & ->).
    rewrite parse_fields_form in H.
    destruct (py_int p) as [n|] eqn:Hp; [|discriminate].
    rewrite bind_Ok in H. injection H as <- <- <- <-.
    exists (String mt (String c (p +:+ String w EmptyString))).
    split; [apply (revert_single_swap w (String c p) mt)|].
    rewrite parse_fields_form, Hp. reflexivity.
  - destruct s as [|a [|b [|c s]]]; try discriminate H.
    simpl in Hlen. lia.
Qed.

Lemma parse_fields_revert_witness :
  ∃ s', Mutation.revert_single "YC17T" = Ok s'
    ∧ Mutation.parse_fields s' = Ok ("T", "C", 17, "Y").
Proof. apply (parse_fields_revert "YC17T" "Y" "C" 17 "T"). reflexivity. Defined.

(** ** Mutation: rename_chains on any tuple *)

Lemma rename_chains_single_short dct s :
  chain_id s = None → Mutation.rename_chains_single s dct = Raise IndexError.
Proof. destruct s as [|a [|c s]]; [reflexivity|reflexivity|discriminate]. Qed.

(** The first point mutation that cannot be renamed decides how
    [rename_chains] fails: [IndexError] if it has no chain id, the
    [KeyError] of its chain id if the mapping lacks that, whatever comes
    after it. *)
Theorem rename_chains_first_failure (m : Mutation.t)
    (dct : gmap string string) l1 s l2 :
  Mutation.muttuple m = l1 ++ s :: l2 →
  Forall (fun x => ∃ c, chain_id x = Some c ∧ is_Some (dct !! c)) l1 →
  (chain_id s = None → Mutation.rename_chains m dct = Raise IndexError)
  ∧ (∀ c, chain_id s = Some c → dct !! c = None →
          Mutation.rename_chains m dct = Raise (KeyError c)).
Proof.
  intros Hm Hl1.
  assert (Hok : Forall (fun y => ∃ z, Mutation.rename_chains_single y dct = Ok z) l1).
  { eapply Forall_impl; [exact Hl1|]. intros x (c & Hc & [v Hv]).
    destruct (chain_id_Some x) as (a & c' & rest & ->); [eauto|].
    simpl in Hc. injection Hc as <-.
    rewrite rename_chains_single_eq, Hv. eauto. }
  unfold Mutation.rename_chains. rewrite Hm. split.
  - intros Hs.
    rewrite (mapM_Raise _ l1 s l2 IndexError Hok); [reflexivity|].
    apply rename_chains_single_short, Hs.
  - intros c Hc Hn.
    rewrite (mapM_Raise _ l1 s l2 (KeyError c) Hok); [reflexivity|].
    destruct (chain_id_Some s) as (a & c' & rest & ->); [eauto|].
    simpl in Hc. injection Hc as <-.
    rewrite rename_chains_single_eq, Hn. reflexivity.
Qed.

Lemma rename_chains_first_failure_witness :
  (chain_id "T" = None →
   Mutation.rename_chains {| Mutation.muttuple := ["YC17T"; "T"; "TA20A"] |}
     ex_rename = Raise IndexError)
  ∧ (∀ c, chain_id "T" = Some c → ex_rename !! c = None →
          Mutation.rename_chains
            {| Mutation.muttuple := ["YC17T"; "T"; "TA20A"] |} ex_rename
          = Raise (KeyError c)).
Proof.
  apply (rename_chains_first_failure
           {| Mutation.muttuple := ["YC17T"; "T"; "TA20A"] |} ex_rename
           ["YC17T"] "T" ["TA20A"]).
  - reflexivity.
  - repeat constructor. exists "C". split; [reflexivity|]. eexists. reflexivity.
Defined.

(** A renaming by one-character chain ids, followed by a renaming that
    maps each new chain id back to the old one, gives the mutation back. *)
Theorem rename_chains_back (m : Mutation.t) (dct dct' : gmap string string) :
  Forall (fun s => ∃ c v, chain_id s = Some c
                          ∧ dct !! c = Some (String v EmptyString)
                          ∧ dct' !! String v EmptyString = Some c)
    (Mutation.muttuple m) →
  ∃ m', Mutation.rename_chains m dct = Ok m'
    ∧ Mutation.rename_chains m' dct' = Ok m.
Proof.
  destruct m as [tup]. simpl Mutation.muttuple. intros H.
  assert (Hk : ∃ k,
    Forall2 (fun s s' => Mutation.rename_chains_single s dct = Ok s') tup k
    ∧ Forall2 (fun s' s => Mutation.rename_chains_single s' dct' = Ok s) k tup).
  { induction H as [|s tup (c & v & Hc & Hv & Hback) _ (k & IH1 & IH2)].
    - exists []. split; constructor.
    - destruct (chain_id_Some s) as (a & c' & rest & ->); [eauto|].
      simpl in Hc. injection Hc as <-.
      exists (String a (String v rest) :: k). split; constructor; auto.
      + rewrite rename_chains_single_eq, Hv. reflexivity.
      + rewrite rename_chains_single_eq, Hback. reflexivity. }
  destruct Hk as (k & Hk1 & Hk2).
  exists {| Mutation.muttuple := k |}. unfold Mutation.rename_chains.
  simpl Mutation.muttuple.
  rewrite (mapM_Ok _ _ _ Hk1), (mapM_Ok _ _ _ Hk2). split; reflexivity.
Qed.

Lemma rename_chains_back_witness :
  ∃ m', Mutation.rename_chains {| Mutation.muttuple := ["YC17T"; "TC20A"] |}
          ex_rename = Ok m'
    ∧ Mutation.rename_chains m' ex_rename_back
      = Ok {| Mutation.muttuple := ["YC17T"; "TC20A"] |}.
Proof.
  apply (rename_chains_back {| Mutation.muttuple := ["YC17T"; "TC20A"] |}
           ex_rename ex_rename_back).
  repeat constructor; exists "C", "A"%char; repeat split; reflexivity.
Defined.

(** Renaming to a one-character chain id changes the chain field of the
    parsed point mutation and no other field. *)
Theorem parse_fields_rename (s : string) (dct : gmap string string)
    wtres chainid pos mutres (v : ascii) :
  Mutation.parse_fields s = Ok (wtres, chainid, pos, mutres) →
  dct !! chainid = Some (String v EmptyString) →
  ∃ s', Mutation.rename_chains_single s dct = Ok s'
    ∧ Mutation.parse_fields s'
      = Ok (wtres, String v EmptyString, pos, mutres).
Proof.
  intros H Hv.
  destruct (le_lt_dec 3 (String.length s)) as [Hlen|Hlen].
  - destruct (string_form3 s Hlen) as (w & c & p & mt & ->).
    rewrite parse_fields_form in H.
    destruct (py_int p) as [n|] eqn:Hp; [|discriminate].
    rewrite bind_Ok in H. injection H as <- <- <- <-.
    exists (String w (String v (p +:+ String mt EmptyString))).
    split; [rewrite rename_chains_single_eq, Hv; reflexivity|].
    rewrite parse_fields_form, Hp. reflexivity.
  - destruct s as [|a [|b [|c s]]]; try discriminate H.
    simpl in Hlen. lia.
Qed.

Lemma parse_fields_rename_witness :
  ∃ s', Mutation.rename_chains_single "YC17T" ex_rename = Ok s'
    ∧ Mutation.parse_fields s' = Ok ("Y", "A", 17, "T").
Proof.
  apply (parse_fields_rename "YC17T" ex_rename "Y" "C" 17 "T" "A"%char);
    reflexivity.
Defined.

(** ** Mutation: is_mutation_reversed, its failures and its relatives *)

Section structure_lookup_properties.
Context (Model : Type) (get_model load_pdb : string → Z → result Model)
  (get_resname : Model → string → Z → result string)
  (three_to_one : string → result string).

Local Abbreviation reversed :=
  (Mutation.is_mutation_reversed Model get_model get_resname three_to_one).
Local Abbreviation residue_wt :=
  (is_residue_wt Model load_pdb get_resname three_to_one).

(** The call in terms of the residue that the structure shows. *)
Lemma is_mutation_reversed_unfold mut rest pdbfile model_id
    wtres chainid pos mutres :
  Mutation.parse_fields mut = Ok (wtres, chainid, pos, mutres) →
  reversed {| Mutation.muttuple := mut :: rest |} pdbfile model_id
  = (model ← get_model pdbfile model_id;
     resname ← get_resname model chainid pos;
     observed ← three_to_one resname;
     if bool_decide (observed = wtres) then Ok false
     else if bool_decide (observed = mutres) then Ok true
     else Raise (ValueError (NeitherForwardNorReverse mut))).
Proof.
  intros Hp. unfold Mutation.is_mutation_reversed, verbose.
  simpl Mutation.muttuple. rewrite list_getitem_0, bind_Ok, Hp, bind_Ok.
  reflexivity.
Qed.

(** The failures other than "neither forward nor reverse": the empty
    mutation raises [IndexError]; a first point mutation whose fields do
    not parse raises the exception of the parse, whatever the file holds;
    and an exception of the structure lookup comes out unchanged. *)
Theorem is_mutation_reversed_failures mut rest pdbfile model_id :
  reversed {| Mutation.muttuple := [] |} pdbfile model_id = Raise IndexError
  ∧ (∀ e, Mutation.parse_fields mut = Raise e →
          reversed {| Mutation.muttuple := mut :: rest |} pdbfile model_id
          = Raise e)
  ∧ (∀ wtres chainid pos mutres e,
       Mutation.parse_fields mut = Ok (wtres, chainid, pos, mutres) →
       get_model pdbfile model_id = Raise e
       ∨ (∃ model, get_model pdbfile model_id = Ok model
                   ∧ get_resname model chainid pos = Raise e)
       ∨ (∃ model resname, get_model pdbfile model_id = Ok model
                   ∧ get_resname model chainid pos = Ok resname
                   ∧ three_to_one resname = Raise e) →
       reversed {| Mutation.muttuple := mut :: rest |} pdbfile model_id
       = Raise e).
Proof.
  split; [reflexivity|]. split.
  - intros e He. unfold Mutation.is_mutation_reversed, verbose.
    simpl Mutation.muttuple. rewrite list_getitem_0, bind_Ok, He. reflexivity.
  - intros wtres chainid pos mutres e Hp H.
    rewrite (is_mutation_reversed_unfold _ _ _ _ _ _ _ _ Hp).
    destruct H as [H|[(model & H1 & H2)|(model & resname & H1 & H2 & H3)]].
    + rewrite H. reflexivity.
    + rewrite H1, bind_Ok, H2. reflexivity.
    + rewrite H1, bind_Ok, H2, bind_Ok, H3. reflexivity.
Qed.

(** Reverting a mutation whose first point mutation changes the residue
    turns a forward mutation into a reversed one and back: the answer of
    [is_mutation_reversed] is negated. *)
Theorem is_mutation_reversed_revert mut rest pdbfile model_id
    wtres chainid pos mutres m' b :
  Mutation.parse_fields mut = Ok (wtres, chainid, pos, mutres) →
  wtres ≠ mutres →
  Mutation.revert {| Mutation.muttuple := mut :: rest |} = Ok m' →
  reversed {| Mutation.muttuple := mut :: rest |} pdbfile model_id = Ok b →
  reversed m' pdbfile model_id = Ok (negb b).
Proof.
  intros Hp Hne Hrev Hb.
  destruct (parse_fields_revert _ _ _ _ _ Hp) as (s' & Hs' & Hp').
  unfold Mutation.revert in Hrev. simpl Mutation.muttuple in Hrev.
  rewrite mapM_cons, Hs', bind_Ok in Hrev.
  destruct (mapM Mutation.revert_single rest) as [rest'|]; [|discriminate].
  rewrite !bind_Ok, init_muttuple in Hrev. injection Hrev as <-.
  rewrite (is_mutation_reversed_unfold _ _ _ _ _ _ _ _ Hp) in Hb.
  rewrite (is_mutation_reversed_unfold _ _ _ _ _ _ _ _ Hp').
  destruct (get_model pdbfile model_id) as [model|]; [|discriminate].
  rewrite bind_Ok in *.
  destruct (get_resname model chainid pos) as [resname|]; [|discriminate].
  rewrite bind_Ok in *.
  destruct (three_to_one resname) as [observed|]; [|discriminate].
  rewrite bind_Ok in *.
  destruct (decide (observed = wtres)) as [->|Hw].
  - rewrite bool_decide_eq_true_2 in Hb by reflexivity. injection Hb as <-.
    rewrite bool_decide_eq_false_2 by exact Hne.
    rewrite bool_decide_eq_true_2 by reflexivity. reflexivity.
  - rewrite bool_decide_eq_false_2 in Hb by exact Hw.
    destruct (decide (observed = mutres)) as [->|Hm].
    + rewrite bool_decide_eq_true_2 in Hb by reflexivity. injection Hb as <-.
      rewrite bool_decide_eq_true_2 by reflexivity. reflexivity.
    + rewrite bool_decide_eq_false_2 in Hb by exact Hm. discriminate.
Qed.

(** When [load_pdb] gives the model that [is_mutation_reversed] reads, a
    mutation is forward exactly when [is_residue_wt] finds its declared
    wild type at its chain and position, and if it is reversed,
    [is_residue_wt] finds its declared mutant there. *)
Theorem is_mutation_reversed_residue_wt mut rest pdbfile model_id
    wtres chainid pos mutres :
  load_pdb pdbfile model_id = get_model pdbfile model_id →
  Mutation.parse_fields mut = Ok (wtres, chainid, pos, mutres) →
  (reversed {| Mutation.muttuple := mut :: rest |} pdbfile model_id = Ok false
   ↔ residue_wt pdbfile chainid pos wtres model_id = Ok true)
  ∧ (reversed {| Mutation.muttuple := mut :: rest |} pdbfile model_id = Ok true
     → residue_wt pdbfile chainid pos mutres model_id = Ok true
       ∧ residue_wt pdbfile chainid pos wtres model_id = Ok false).
Proof.
  intros Hload Hp.
  rewrite (is_mutation_reversed_unfold _ _ _ _ _ _ _ _ Hp).
  unfold is_residue_wt, verbose. rewrite Hload.
  destruct (get_model pdbfile model_id) as [model|];
    [|split; [split|]; discriminate].
  rewrite !bind_Ok.
  destruct (get_resname model chainid pos) as [resname|];
    [|split; [split|]; discriminate].
  rewrite !bind_Ok.
  destruct (three_to_one resname) as [observed|];
    [|split; [split|]; discriminate].
  rewrite !bind_Ok.
  destruct (decide (observed = wtres)) as [->|Hw].
  - rewrite !bool_decide_eq_true_2 by reflexivity.
    split; [split; reflexivity|discriminate].
  - rewrite (bool_decide_eq_false_2 (observed = wtres)) by exact Hw.
    rewrite (bool_decide_eq_false_2 (wtres = observed)) by congruence.
    destruct (decide (observed = mutres)) as [->|Hm].
    + rewrite !bool_decide_eq_true_2 by reflexivity.
      split; [split; discriminate|]. intros _. split; reflexivity.
    + rewrite (bool_decide_eq_false_2 (observed = mutres)) by exact Hm.
      split; [split; discriminate|discriminate].
Qed.

End structure_lookup_properties.

Lemma is_mutation_reversed_revert_witness :
  Mutation.is_mutation_reversed unit ex_get_model ex_get_resname
    ex_three_to_one {| Mutation.muttuple := ["TC17Y"; "AA20T"] |}
    "1abc.pdb" 0 = Ok (negb false).
Proof.
  apply (is_mutation_reversed_revert unit ex_get_model ex_get_resname
           ex_three_to_one "YC17T" ["TA20A"] "1abc.pdb" 0
           "Y" "C" 17 "T"); solve [reflexivity | discriminate].
Defined.

Lemma is_mutation_reversed_residue_wt_witness :
  (Mutation.is_mutation_reversed unit ex_get_model ex_get_resname
     ex_three_to_one ex_mutation "1abc.pdb" 0 = Ok false
   ↔ is_residue_wt unit ex_load_pdb ex_get_resname ex_three_to_one
       "1abc.pdb" "C" 17 "Y" 0 = Ok true)
  ∧ (Mutation.is_mutation_reversed unit ex_get_model ex_get_resname
       ex_three_to_one ex_mutation "1abc.pdb" 0 = Ok true
     → is_residue_wt unit ex_load_pdb ex_get_resname ex_three_to_one
         "1abc.pdb" "C" 17 "T" 0 = Ok true
       ∧ is_residue_wt unit ex_load_pdb ex_get_resname ex_three_to_one
           "1abc.pdb" "C" 17 "Y" 0 = Ok false).
Proof.
  apply (is_mutation_reversed_residue_wt unit ex_get_model ex_load_pdb
           ex_get_resname ex_three_to_one "YC17T" ["TA20A"] "1abc.pdb" 0
           "Y" "C" 17 "T"); reflexivity.
Defined.

(** ** MutationSpace: degrees out of range *)

(** A negative degree makes [size] raise what [itertools.combinations]
    raises on it, [ValueError] down to [-2**63] and [OverflowError] below,
    and [construct] too, except at the sentinel -1; a maximum count makes
    [construct] raise [NotImplementedError] before it looks at the
    degree. *)
Theorem negative_degree_raises (mem : Z) (self : MutationSpace.t) (d : Z)
    (wt : bool) :
  d < 0 →
  (- ssize_t_max - 1 ≤ d →
   MutationSpace.size mem self (Some d) wt = Raise (ValueError NegativeR)
   ∧ (d ≠ -1 →
      MutationSpace.construct mem self (Some d) None
      = Raise (ValueError NegativeR)))
  ∧ (d < - ssize_t_max - 1 →
     MutationSpace.size mem self (Some d) wt = Raise OverflowError
     ∧ MutationSpace.construct mem self (Some d) None = Raise OverflowError)
  ∧ ∀ n, MutationSpace.construct mem self (Some d) (Some n)
         = Raise NotImplementedError.
Proof.
  intros Hd. pose proof ssize_t_max_eq as Hmax. split; [|split].
  - intros Hlow. split; [|intros Hs].
    + simpl MutationSpace.size. rewrite size_of_degree_nonzero by lia.
      rewrite combinations_refusal_negative by lia.
      destruct (Z.ltb_spec d (- ssize_t_max - 1)); [lia|reflexivity].
    + rewrite construct_nonzero by lia.
      rewrite combinations_refusal_negative by lia.
      destruct (Z.ltb_spec d (- ssize_t_max - 1)); [lia|reflexivity].
  - intros Hlow. split.
    + simpl MutationSpace.size. rewrite size_of_degree_nonzero by lia.
      rewrite combinations_refusal_negative by lia.
      destruct (Z.ltb_spec d (- ssize_t_max - 1)); [reflexivity|lia].
    + rewrite construct_nonzero by lia.
      rewrite combinations_refusal_negative by lia.
      destruct (Z.ltb_spec d (- ssize_t_max - 1)); [reflexivity|lia].
  - intros n. reflexivity.
Qed.

Lemma negative_degree_raises_witness :
  (- ssize_t_max - 1 ≤ -2 →
   MutationSpace.size ex_mem ex_space (Some (-2)) true
   = Raise (ValueError NegativeR)
   ∧ (-2 ≠ -1 →
      MutationSpace.construct ex_mem ex_space (Some (-2)) None
      = Raise (ValueError NegativeR)))
  ∧ (-2 < - ssize_t_max - 1 →
     MutationSpace.size ex_mem ex_space (Some (-2)) true = Raise OverflowError
     ∧ MutationSpace.construct ex_mem ex_space (Some (-2)) None
       = Raise OverflowError)
  ∧ ∀ n, MutationSpace.construct ex_mem ex_space (Some (-2)) (Some n)
         = Raise NotImplementedError.
Proof. apply (negative_degree_raises ex_mem ex_space (-2) true). lia. Defined.

(** Above [n_pos], as far as the allocator grants the index array of
    [itertools.combinations], [construct] returns the empty list, as
    [size] returns 0 there; beyond that it raises [MemoryError] while the
    degree fits a C [ssize_t] and [OverflowError] from [2**63] on. *)
Theorem construct_above_n_pos (mem : Z) (dct : option MutationSpace.dict)
    (lst : option MutationSpace.slots) (self : MutationSpace.t) (d : Z) :
  MutationSpace.__init__ dct lst = Ok self →
  MutationSpace.n_pos self < d →
  (d ≤ alloc_max mem →
   MutationSpace.construct mem self (Some d) None = Ok [])
  ∧ (alloc_max mem < d → d ≤ ssize_t_max →
     MutationSpace.construct mem self (Some d) None = Raise MemoryError)
  ∧ (ssize_t_max < d →
     MutationSpace.construct mem self (Some d) None = Raise OverflowError).
Proof.
  intros Hinit Hd. apply init_n_pos in Hinit. split; [|split].
  - intros Hmem. rewrite construct_pos by (auto; lia).
    rewrite combinations_short by lia. reflexivity.
  - intros Hmem Hfit. rewrite construct_nonzero by lia.
    rewrite combinations_refusal_beyond by lia.
    destruct (Z.ltb_spec ssize_t_max d); [lia|reflexivity].
  - intros Hbig. pose proof (alloc_max_bounds mem) as [_ Hmax].
    rewrite construct_nonzero by lia.
    rewrite combinations_refusal_beyond by lia.
    destruct (Z.ltb_spec ssize_t_max d); [reflexivity|lia].
Qed.

Lemma construct_above_n_pos_witness :
  (3 ≤ alloc_max ex_mem →
   MutationSpace.construct ex_mem ex_space (Some 3) None = Ok [])
  ∧ (alloc_max ex_mem < 3 → 3 ≤ ssize_t_max →
     MutationSpace.construct ex_mem ex_space (Some 3) None = Raise MemoryError)
  ∧ (ssize_t_max < 3 →
     MutationSpace.construct ex_mem ex_space (Some 3) None
     = Raise OverflowError).
Proof.
  apply (construct_above_n_pos ex_mem (Some ex_dct) None ex_space 3);
    [reflexivity|simpl; lia].
Defined.

(** ** MutationSpace: all positions at once *)

Lemma combinations_all {A} (l : list A) : combinations l (length l) = [l].
Proof.
  induction l as [|x l IH]; [reflexivity|]. simpl.
  rewrite IH, combinations_short by lia. reflexivity.
Qed.

Lemma math_prod_zero (l : list Z) : 0 ∈ l → math_prod l = 0.
Proof.
  induction l as [|x l IH]; intros H; [by apply elem_of_nil in H|].
  apply elem_of_cons in H as [<-|H]; simpl; [lia|]. rewrite (IH H). lia.
Qed.

(** At degree [n_pos], in a space with at least one slot, [construct]
    returns the product over all the slots, which is also what the
    sentinel degree -1 returns; [size] is the product of the slot sizes;
    and one empty slot empties the list. *)
Theorem construct_all_positions (mem : Z) (dct : option MutationSpace.dict)
    (lst : option MutationSpace.slots) (self : MutationSpace.t) :
  MutationSpace.__init__ dct lst = Ok self →
  0 < MutationSpace.n_pos self →
  MutationSpace.construct mem self (Some (MutationSpace.n_pos self)) None
  = Ok (MutationSpace.joined_product (MutationSpace.lst self) false)
  ∧ MutationSpace.construct mem self (Some (-1)) None
    = MutationSpace.construct mem self (Some (MutationSpace.n_pos self)) None
  ∧ MutationSpace.size mem self (Some (MutationSpace.n_pos self)) false
    = Ok (math_prod ((fun x => Z.of_nat (length x)) <$> MutationSpace.lst self))
  ∧ ([] ∈ MutationSpace.lst self →
     MutationSpace.construct mem self (Some (MutationSpace.n_pos self)) None
     = Ok []).
Proof.
  intros Hinit Hpos. apply init_n_pos in Hinit.
  assert (Hc : MutationSpace.construct mem self
                 (Some (MutationSpace.n_pos self)) None
               = Ok (MutationSpace.joined_product (MutationSpace.lst self) false)).
  { rewrite construct_pos by (try exact Hpos; lia).
    rewrite Hinit, Nat2Z.id, combinations_all. simpl. rewrite app_nil_r.
    reflexivity. }
  split; [exact Hc|]. split; [rewrite Hc; reflexivity|]. split.
  - simpl MutationSpace.size.
    rewrite size_of_degree_pos by (try exact Hpos; lia).
    rewrite Hinit, Nat2Z.id, combinations_all. unfold count_choices.
    simpl. f_equal. lia.
  - intros Hempty. rewrite Hc. f_equal. apply length_zero_iff_nil.
    apply Nat2Z.inj. rewrite length_joined_product, length_itertools_product.
    apply math_prod_zero. apply list_elem_of_fmap. exists []. split; auto.
Qed.

Lemma construct_all_positions_witness :
  MutationSpace.construct ex_mem ex_space (Some (-1)) None
  = Ok ["YC17A,TA20A"; "YC17G,TA20A"].
Proof.
  destruct (construct_all_positions ex_mem (Some ex_dct) None ex_space)
    as (_ & H & _).
  - reflexivity.
  - simpl. lia.
  - exact H.
Defined.

(** Without a slot the two differ: the sentinel degree gives the one
    empty string of the empty product, degree [n_pos = 0] gives nothing. *)
Example construct_sentinel_empty_space :
  ∃ self, MutationSpace.__init__ (Some []) None = Ok self
    ∧ MutationSpace.construct ex_mem self (Some (-1)) None = Ok [EmptyString]
    ∧ MutationSpace.construct ex_mem self (Some (MutationSpace.n_pos self)) None
      = Ok [].
Proof. eexists. repeat split; reflexivity. Qed.

(** ** MutationSpace: the size of the whole space *)

Lemma py_sum_app l1 l2 : py_sum (l1 ++ l2) = py_sum l1 + py_sum l2.
Proof.
  induction l1 as [|x l1 IH]; [reflexivity|]. simpl. unfold py_sum in *.
  simpl. rewrite IH. lia.
Qed.

Lemma py_sum_fmap_linear {A} (f g : A → Z) (c : Z) (l : list A) :
  py_sum ((fun d => c * f d + g d) <$> l)
  = c * py_sum (f <$> l) + py_sum (g <$> l).
Proof.
  induction l as [|x l IH]; [simpl; unfold py_sum; simpl; lia|].
  rewrite !fmap_cons. unfold py_sum in *. simpl. rewrite IH. lia.
Qed.

Lemma py_sum_fmap_zero {A} (f : A → Z) (l : list A) :
  Forall (fun d => f d = 0) l → py_sum (f <$> l) = 0.
Proof.
  induction 1 as [|x l Hx _ IH]; [reflexivity|].
  rewrite fmap_cons. unfold py_sum in *. simpl. rewrite Hx, IH. reflexivity.
Qed.

Lemma count_choices_app L1 L2 :
  count_choices (L1 ++ L2) = count_choices L1 + count_choices L2.
Proof. unfold count_choices. rewrite fmap_app. apply py_sum_app. Qed.

Lemma count_choices_fmap_cons x L :
  count_choices (cons x <$> L) = Z.of_nat (length x) * count_choices L.
Proof.
  induction L as [|c L IH]; [unfold count_choices; simpl; lia|].
  rewrite fmap_cons, !count_choices_cons, IH, fmap_cons. simpl. lia.
Qed.

Lemma count_choices_degree_0 (l : MutationSpace.slots) :
  count_choices (combinations l 0) = 1.
Proof. rewrite combinations_0. reflexivity. Qed.

Lemma count_choices_degree_S x (l : MutationSpace.slots) d :
  count_choices (combinations (x :: l) (S d))
  = Z.of_nat (length x) * count_choices (combinations l d)
    + count_choices (combinations l (S d)).
Proof. simpl. rewrite count_choices_app, count_choices_fmap_cons. reflexivity. Qed.

Lemma py_sum_seq_S (f : nat → Z) k :
  py_sum (f <$> seq 0 (S k)) = f 0%nat + py_sum ((fun d => f (S d)) <$> seq 0 k).
Proof.
  simpl seq. rewrite fmap_cons, <- fmap_S_seq, <- list_fmap_compose.
  reflexivity.
Qed.

(** The counts of all degrees add up to the product of the slot sizes,
    each slot counted with its wild type. *)
Lemma count_choices_all_degrees (l : MutationSpace.slots) k :
  (length l ≤ k)%nat →
  py_sum ((fun d => count_choices (combinations l d)) <$> seq 0 (S k))
  = count_with_wild_types l.
Proof.
  revert k. induction l as [|x l IH]; intros k Hk.
  - rewrite py_sum_seq_S, py_sum_fmap_zero; [reflexivity|].
    apply Forall_forall. intros d _. reflexivity.
  - destruct k as [|k]; [simpl in Hk; lia|]. simpl in Hk.
    rewrite py_sum_seq_S, count_choices_degree_0.
    erewrite list_fmap_ext;
      [|intros _ d _; apply count_choices_degree_S].
    rewrite (py_sum_fmap_linear
               (fun d => count_choices (combinations l d))
               (fun d => count_choices (combinations l (S d)))).
    rewrite IH by lia.
    pose proof (IH (S k) ltac:(lia)) as IH'.
    rewrite py_sum_seq_S, count_choices_degree_0 in IH'.
    unfold count_with_wild_types in *. rewrite fmap_cons. simpl math_prod.
    lia.
Qed.

Lemma size_unspecified (mem : Z) self wt :
  MutationSpace.n_pos self = Z.of_nat (length (MutationSpace.lst self)) →
  MutationSpace.size mem self None wt
  = Ok (py_sum ((fun d => count_choices
                            (combinations (MutationSpace.lst self) (S d)))
                <$> seq 0 (length (MutationSpace.lst self)))).
Proof.
  intros Hn. simpl MutationSpace.size. unfold range. rewrite Hn.
  replace (Z.of_nat (length (MutationSpace.lst self)) + 1 - 1)
    with (Z.of_nat (length (MutationSpace.lst self))) by lia.
  rewrite Nat2Z.id.
  rewrite (mapM_Ok_fmap _
             (fun d => count_choices
                         (combinations (MutationSpace.lst self) (Z.to_nat d)))).
  - rewrite bind_Ok, <- list_fmap_compose. f_equal. f_equal.
    apply list_fmap_ext. intros _ d _. simpl.
    replace (Z.to_nat (1 + Z.of_nat d)) with (S d) by lia. reflexivity.
  - apply Forall_fmap, Forall_forall. intros d Hd. simpl.
    apply elem_of_seq in Hd. rewrite size_of_degree_pos by lia. f_equal.
Qed.

(** [size()], the degree unspecified, is Π (|slot_i| + 1) - 1, the formula
    that a comment of [size] proposes; the wild-type flag changes
    nothing here. *)
Theorem size_closed_form (mem : Z) (dct : option MutationSpace.dict)
    (lst : option MutationSpace.slots) (self : MutationSpace.t) (wt : bool) :
  MutationSpace.__init__ dct lst = Ok self →
  MutationSpace.size mem self None wt
  = Ok (count_with_wild_types (MutationSpace.lst self) - 1).
Proof.
  intros Hinit.
  rewrite (size_unspecified mem self wt (init_n_pos _ _ _ Hinit)).
  f_equal.
  pose proof (count_choices_all_degrees (MutationSpace.lst self)
                (length (MutationSpace.lst self)) ltac:(lia)) as H.
  rewrite py_sum_seq_S, count_choices_degree_0 in H. lia.
Qed.

Lemma size_closed_form_witness :
  MutationSpace.size ex_mem ex_space None true
  = Ok (count_with_wild_types (MutationSpace.lst ex_space) - 1).
Proof.
  apply (size_closed_form ex_mem (Some ex_dct) None ex_space true).
  reflexivity.
Defined.

(** ** MutationSpace: the whole space *)

Lemma all_wild_type_in_product (lst : MutationSpace.slots) :
  replicate (length lst) EmptyString
  ∈ itertools_product ((fun x => x ++ [EmptyString]) <$> lst).
Proof.
  induction lst as [|x lst IH]; [simpl; apply list_elem_of_singleton; reflexivity|].
  rewrite fmap_cons. simpl. apply list_elem_of_bind.
  exists EmptyString. split.
  - apply list_elem_of_fmap. eexists. split; [reflexivity|exact IH].
  - apply elem_of_app. right. apply list_elem_of_singleton. reflexivity.
Qed.

Lemma filter_replicate_empty n :
  filter (fun s => s ≠ EmptyString) (replicate n EmptyString) = [].
Proof.
  induction n as [|n IH]; [reflexivity|]. simpl.
  rewrite filter_cons_False; [exact IH|]. intros H. apply H. reflexivity.
Qed.

(** The pure wild type is always among the strings of the product. *)
Lemma identity_in_joined_product (lst : MutationSpace.slots) :
  EmptyString ∈ MutationSpace.joined_product lst true.
Proof.
  unfold MutationSpace.joined_product.
  apply list_elem_of_fmap. eexists. split; [|apply list_elem_of_fmap].
  2:{ eexists. split; [reflexivity|apply all_wild_type_in_product]. }
  rewrite filter_replicate_empty. reflexivity.
Qed.

Lemma list_remove_elem x l :
  x ∈ l →
  ∃ l', list_remove x l = Ok l' ∧ length l = S (length l')
        ∧ ∀ s, s ∈ l → s ≠ x → s ∈ l'.
Proof.
  induction l as [|y l IH]; intros Hin; [by apply elem_of_nil in Hin|].
  simpl list_remove. destruct (decide (y = x)) as [->|Hne].
  - rewrite bool_decide_eq_true_2 by reflexivity.
    exists l. split; [reflexivity|]. split; [reflexivity|].
    intros s Hs Hsx. apply elem_of_cons in Hs as [->|Hs]; [congruence|exact Hs].
  - rewrite bool_decide_eq_false_2 by exact Hne.
    apply elem_of_cons in Hin as [->|Hin]; [congruence|].
    destruct (IH Hin) as (l' & -> & Hlen & Hkeep).
    exists (y :: l'). split; [reflexivity|]. split; [simpl; lia|].
    intros s Hs Hsx. apply elem_of_cons in Hs as [->|Hs].
    + by left.
    + right. auto.
Qed.

Lemma length_joined_product_true (lst : MutationSpace.slots) :
  Z.of_nat (length (MutationSpace.joined_product lst true))
  = count_with_wild_types lst.
Proof.
  rewrite length_joined_product, length_itertools_product.
  unfold count_with_wild_types. rewrite <- list_fmap_compose.
  f_equal. apply list_fmap_ext. intros _ x _. simpl.
  rewrite length_app. simpl. lia.
Qed.

(** [construct()], the degree unspecified, never raises, on a space built
    from a dict or from a slot list, and [size()] is the length of the
    list it returns. *)
Theorem construct_full_length_is_size (mem : Z) (dct : option MutationSpace.dict)
    (lst : option MutationSpace.slots) (self : MutationSpace.t) :
  MutationSpace.__init__ dct lst = Ok self →
  ∃ l, MutationSpace.construct mem self None None = Ok l
    ∧ MutationSpace.size mem self None false = Ok (Z.of_nat (length l)).
Proof.
  intros Hinit.
  destruct (list_remove_elem _ _
              (identity_in_joined_product (MutationSpace.lst self)))
    as (l & Hl & Hlen & _).
  exists l. split; [exact Hl|].
  rewrite (size_closed_form mem _ _ _ false Hinit). f_equal.
  rewrite <- length_joined_product_true, Hlen. lia.
Qed.

Lemma construct_full_length_is_size_witness :
  ∃ l, MutationSpace.construct ex_mem ex_slot_space None None = Ok l
    ∧ MutationSpace.size ex_mem ex_slot_space None false = Ok (Z.of_nat (length l)).
Proof.
  apply (construct_full_length_is_size ex_mem None
           (Some [["YC17A"; "YC17G"]; []; ["TA20A"]]) ex_slot_space).
  reflexivity.
Defined.

(** A slot list, unlike a dict, may hold the empty string, and then
    [construct()] returns it: [remove] drops one identity only. *)
Example construct_full_keeps_identity :
  ∃ self, MutationSpace.__init__ None (Some [[EmptyString]]) = Ok self
    ∧ MutationSpace.construct ex_mem self None None = Ok [EmptyString].
Proof. eexists. split; reflexivity. Qed.

(** ** MutationSpace: the degrees inside the whole space *)

(** A tuple of the product over a combination of slots is, once the
    placeholders are dropped, a tuple of the product over all the slots
    with their placeholders. *)
Lemma product_of_combination (lst : MutationSpace.slots) r c t :
  c ∈ combinations lst r → t ∈ itertools_product c →
  ∃ t', t' ∈ itertools_product ((fun x => x ++ [EmptyString]) <$> lst)
        ∧ filter (fun s => s ≠ EmptyString) t'
          = filter (fun s => s ≠ EmptyString) t.
Proof.
  revert r c t. induction lst as [|x lst IH]; intros r c t Hc Ht.
  - destruct r; simpl in Hc; [|by apply elem_of_nil in Hc].
    apply list_elem_of_singleton in Hc as ->.
    apply list_elem_of_singleton in Ht as ->.
    exists []. split; [apply list_elem_of_singleton|]; reflexivity.
  - destruct r as [|r].
    + simpl in Hc. apply list_elem_of_singleton in Hc as ->.
      apply list_elem_of_singleton in Ht as ->.
      exists (replicate (length (x :: lst)) EmptyString).
      split; [apply all_wild_type_in_product|].
      rewrite filter_replicate_empty. reflexivity.
    + simpl in Hc. apply elem_of_app in Hc as [Hc|Hc].
      * apply list_elem_of_fmap in Hc as (c' & -> & Hc').
        simpl in Ht. apply list_elem_of_bind in Ht as (e & Ht & He).
        apply list_elem_of_fmap in Ht as (t0 & -> & Ht0).
        destruct (IH r c' t0 Hc' Ht0) as (t0' & Hin & Hf).
        exists (e :: t0'). split.
        -- rewrite fmap_cons. simpl. apply list_elem_of_bind. exists e.
           split; [|apply elem_of_app; left; exact He].
           apply list_elem_of_fmap. eauto.
        -- destruct (decide (e ≠ EmptyString)) as [Hne|Hne].
           ++ rewrite !filter_cons_True by exact Hne. rewrite Hf. reflexivity.
           ++ rewrite !filter_cons_False by exact Hne. exact Hf.
      * destruct (IH (S r) c t Hc Ht) as (t0' & Hin & Hf).
        exists (EmptyString :: t0'). split.
        -- rewrite fmap_cons. simpl. apply list_elem_of_bind.
           exists EmptyString.
           split; [|apply elem_of_app; right; apply list_elem_of_singleton;
                    reflexivity].
           apply list_elem_of_fmap. eauto.
        -- rewrite filter_cons_False; [exact Hf|].
           intros H. apply H. reflexivity.
Qed.

(** A combination of one slot or more, of slots without the empty string,
    joins to non-empty strings only. *)
Lemma joined_combination_nonempty (lst : MutationSpace.slots) r c t :
  Forall (Forall (fun s => s ≠ EmptyString)) lst →
  c ∈ combinations lst (S r) → t ∈ itertools_product c →
  join "," (filter (fun s => s ≠ EmptyString) t) ≠ EmptyString.
Proof.
  intros Hne Hc Ht.
  pose proof (combinations_Forall _ lst (S r) Hne) as Hall.
  rewrite Forall_forall in Hall. specialize (Hall c Hc).
  assert (Hnil : c ≠ []).
  { clear -Hc. induction lst as [|x lst IH]; simpl in Hc.
    - by apply elem_of_nil in Hc.
    - apply elem_of_app in Hc as [Hc|Hc]; [|auto].
      apply list_elem_of_fmap in Hc as (c' & -> & _). discriminate. }
  destruct c as [|x c]; [congruence|]. simpl in Ht.
  apply list_elem_of_bind in Ht as (e & Ht & He).
  apply list_elem_of_fmap in Ht as (t0 & -> & _).
  apply Forall_cons in Hall as [Hx _]. rewrite Forall_forall in Hx.
  rewrite filter_cons_True by (apply Hx, He).
  apply join_cons_nonempty, Hx, He.
Qed.

Lemma elem_of_concat {A} (x : A) (ls : list (list A)) :
  x ∈ concat ls → ∃ l, x ∈ l ∧ l ∈ ls.
Proof.
  induction ls as [|l ls IH]; simpl; intros H; [by apply elem_of_nil in H|].
  apply elem_of_app in H as [H|H].
  - exists l. split; [exact H|by left].
  - destruct (IH H) as (l' & Hx & Hl'). exists l'. split; [exact Hx|by right].
Qed.

(** In a space built from a dict, whenever [construct] returns for a
    positive degree, which it does up to [n_pos], every mutation that it
    returns is among those that it returns for the whole space. *)
Theorem construct_degree_in_full (mem : Z) (dct : MutationSpace.dict)
    (self : MutationSpace.t) (d : Z) :
  MutationSpace.__init__ (Some dct) None = Ok self →
  0 < d →
  ∃ lf, MutationSpace.construct mem self None None = Ok lf
    ∧ (∀ ld, MutationSpace.construct mem self (Some d) None = Ok ld →
             ∀ s, s ∈ ld → s ∈ lf)
    ∧ (d ≤ MutationSpace.n_pos self →
       ∃ ld, MutationSpace.construct mem self (Some d) None = Ok ld).
Proof.
  rewrite init_dct. intros [= <-] Hd.
  set (lst := MutationSpace._dict_to_list dct).
  destruct (list_remove_elem _ _ (identity_in_joined_product lst))
    as (lf & Hlf & _ & Hkeep).
  exists lf. split; [exact Hlf|]. split.
  - intros ld Hld s Hs. rewrite construct_nonzero in Hld by lia.
    destruct (combinations_refusal _ _ d); [discriminate|].
    injection Hld as <-. simpl MutationSpace.lst in Hs. fold lst in Hs.
    apply elem_of_concat in Hs as (part & Hs & Hpart).
    apply list_elem_of_fmap in Hpart as (c & -> & Hc).
    unfold MutationSpace.joined_product in Hs.
    apply list_elem_of_fmap in Hs as (t1 & -> & Hs).
    apply list_elem_of_fmap in Hs as (t & -> & Ht).
    destruct (Z.to_nat d) as [|r] eqn:Hr; [lia|].
    apply Hkeep.
    + destruct (product_of_combination lst (S r) c t Hc Ht) as (t' & Hin & Hf).
      unfold MutationSpace.joined_product.
      apply list_elem_of_fmap. exists (filter (fun s => s ≠ EmptyString) t').
      split; [rewrite Hf; reflexivity|].
      apply list_elem_of_fmap. eauto.
    + apply (joined_combination_nonempty lst r c t); auto.
      apply dict_to_list_nonempty.
  - simpl MutationSpace.n_pos. intros Hn. eexists.
    apply construct_pos; [exact Hd|]. left. exact Hn.
Qed.

Lemma construct_degree_in_full_witness :
  ∃ lf, MutationSpace.construct ex_mem ex_space None None = Ok lf
    ∧ (∀ ld, MutationSpace.construct ex_mem ex_space (Some 2) None = Ok ld →
             ∀ s, s ∈ ld → s ∈ lf)
    ∧ (2 ≤ MutationSpace.n_pos ex_space →
       ∃ ld, MutationSpace.construct ex_mem ex_space (Some 2) None = Ok ld).
Proof.
  apply (construct_degree_in_full ex_mem ex_dct ex_space 2); [reflexivity|lia].
Defined.

(** ** MutationSpace.from_affilib *)

Lemma contains_char_remove_char w s : contains_char w (remove_char w s) = false.
Proof.
  induction s as [|a s IH]; [reflexivity|]. simpl.
  destruct (Ascii.eqb a w) eqn:Ha; [exact IH|]. simpl. rewrite Ha, IH.
  reflexivity.
Qed.

(** Replacing a one-character string by nothing removes that character. *)
Lemma str_replace_by_empty_char s w :
  str_replace_by_empty s (String w EmptyString) = remove_char w s.
Proof.
  unfold str_replace_by_empty. rewrite bool_decide_eq_false_2 by discriminate.
  induction s as [|a s IH]; [reflexivity|].
  simpl. destruct (ascii_dec w a) as [->|Hne].
  - rewrite Ascii.eqb_refl. destruct s; exact IH.
  - destruct (Ascii.eqb_spec a w) as [->|_]; [congruence|].
    rewrite IH. reflexivity.
Qed.

Lemma dict_setitem_Forall (P : string * string → Prop) key value dct :
  Forall P dct → P (key, value) → Forall P (dict_setitem key value dct).
Proof.
  intros Hd Hnew. induction Hd as [|[k v] dct Hkv Hd IH]; simpl.
  - repeat constructor. exact Hnew.
  - case_bool_decide as Hk.
    + subst k. constructor; assumption.
    + constructor; assumption.
Qed.

Lemma for_items_app body l1 l2 dct :
  for_items body (l1 ++ l2) dct
  = (dct' ← for_items body l1 dct; for_items body l2 dct').
Proof.
  revert dct. induction l1 as [|item l1 IH]; intros dct; [reflexivity|].
  simpl. destruct (body dct item) as [dct'|e]; [apply IH|reflexivity].
Qed.

Lemma for_items_Forall (P : string * string → Prop) body items dct dct' :
  (∀ d item d', Forall P d → body d item = Done d' → Forall P d') →
  Forall P dct → for_items body items dct = Done dct' → Forall P dct'.
Proof.
  intros Hbody. revert dct. induction items as [|item items IH]; intros dct Hd.
  - intros [= <-]. exact Hd.
  - simpl. destruct (body dct item) as [d1|e] eqn:Hb; [|discriminate].
    apply IH. eapply Hbody; eauto.
Qed.

Lemma dict_of_sequences_bad index seqs1 seq seqs2 dct :
  Forall (fun x => length x = 2%nat) seqs1 → length seq ≠ 2%nat →
  dict_of_sequences index (seqs1 ++ seq :: seqs2) dct
  = Failed (DictUpdateLength (index + length seqs1) (length seq)).
Proof.
  intros H Hseq. revert index dct.
  induction H as [|x seqs1 Hx _ IH]; intros index dct.
  - simpl app. rewrite Nat.add_0_r.
    destruct seq as [|a [|b [|c seq]]]; try reflexivity.
    simpl in Hseq. lia.
  - destruct x as [|a [|b [|c x]]]; try discriminate Hx.
    simpl. rewrite IH. do 2 f_equal. lia.
Qed.

Section from_affilib_properties.
Context (Model : Type) (load_pdb : string → Z → result Model)
  (readlines : string → result (list string))
  (get_resname : Model → string → Z → result string)
  (three_to_one : string → result string).

Local Abbreviation item_step := (affilib_item Model get_resname three_to_one).

Lemma affilib_item_excludes model dct item dct' :
  (∀ r w, three_to_one r = Ok w → String.length w = 1%nat) →
  Forall wild_type_excluded dct →
  item_step model dct item = Done dct' →
  Forall wild_type_excluded dct'.
Proof.
  intros Hone Hd. destruct item as [key_raw value_raw].
  unfold affilib_item.
  destruct (py_int _) as [pos|]; [|discriminate]. simpl.
  destruct (str_index key_raw (-1)) as [chainid|]; [|discriminate]. simpl.
  destruct (get_resname model chainid pos) as [resname|]; [|discriminate].
  simpl. destruct (three_to_one resname) as [wt|] eqn:Hwt; [|discriminate].
  simpl. apply Hone in Hwt.
  destruct wt as [|w [|? ?]]; try discriminate Hwt.
  rewrite str_replace_by_empty_char.
  destruct (_ =? _); [discriminate|]. intros [= <-].
  apply dict_setitem_Forall; [exact Hd|].
  exists w, (chainid +:+ str_of_int pos). split; [reflexivity|].
  apply contains_char_remove_char.
Qed.

(** When [three_to_one] gives one-letter codes, as its name says, a space
    that [from_affilib] returns offers no substitution of a residue by
    itself: in every entry of every slot the last character, the mutant,
    differs from the first, the wild type. *)
Theorem from_affilib_no_identity affilib_path pdb_path self :
  (∀ r w, three_to_one r = Ok w → String.length w = 1%nat) →
  from_affilib Model load_pdb readlines get_resname three_to_one
    affilib_path pdb_path = Done self →
  Forall (Forall (fun s => ∃ w rest mt,
                     s = String w (rest +:+ String mt EmptyString) ∧ w ≠ mt))
    (MutationSpace.lst self).
Proof.
  intros Hone. unfold from_affilib.
  destruct (load_pdb pdb_path 0) as [model|]; [|discriminate]. simpl.
  destruct (readlines affilib_path) as [rows|]; [|discriminate]. simpl.
  destruct (dict_of_sequences _ _ _) as [dct_raw|]; [|discriminate]. simpl.
  destruct (for_items _ dct_raw []) as [dct|] eqn:Hfor; [|discriminate].
  simpl. intros [= <-]. simpl.
  assert (Hd : Forall wild_type_excluded dct).
  { eapply for_items_Forall; [|constructor|exact Hfor].
    intros d item d'. apply affilib_item_excludes, Hone. }
  unfold MutationSpace._dict_to_list. apply Forall_fmap.
  eapply Forall_impl; [exact Hd|].
  intros [pref mts] (w & rest & Hpref & Hno). simpl in *. subst pref.
  apply Forall_fmap, Forall_forall. intros mt Hmt. simpl.
  exists w, rest, mt. split; [reflexivity|]. intros <-.
  clear -Hno Hmt. induction mts as [|a mts IH]; simpl in *.
  - by apply elem_of_nil in Hmt.
  - apply orb_false_iff in Hno as [Ha Hno].
    apply elem_of_cons in Hmt as [->|Hmt]; [|auto].
    rewrite Ascii.eqb_refl in Ha. discriminate.
Qed.

(** [from_affilib] raises its [ValueError] at the first row whose residue
    list does not hold the wild type that the structure shows for it. *)
Theorem from_affilib_missing_wild_type affilib_path pdb_path model rows
    dct_raw items1 key_raw value_raw items2 dct1 pos chainid resname w :
  load_pdb pdb_path 0 = Ok model →
  readlines affilib_path = Ok rows →
  dict_of_sequences 0 (str_split_whitespace <$> rows) [] = Done dct_raw →
  dct_raw = items1 ++ (key_raw, value_raw) :: items2 →
  for_items (item_step model) items1 [] = Done dct1 →
  py_int (str_slice key_raw None (Some (-1))) = Ok pos →
  str_index key_raw (-1) = Ok chainid →
  get_resname model chainid pos = Ok resname →
  three_to_one resname = Ok (String w EmptyString) →
  contains_char w value_raw = false →
  from_affilib Model load_pdb readlines get_resname three_to_one
    affilib_path pdb_path
  = Failed (NoWildType (String w EmptyString) key_raw).
Proof.
  intros Hload Hread Hraw -> H1 Hpos Hchain Hres Hwt Hno.
  unfold from_affilib. rewrite Hload, Hread. simpl. rewrite Hraw. simpl.
  rewrite for_items_app, H1. simpl. unfold affilib_item.
  rewrite Hpos. simpl. rewrite Hchain. simpl. rewrite Hres. simpl.
  rewrite Hwt. simpl.
  rewrite str_replace_by_empty_char, (remove_char_absent w value_raw Hno).
  rewrite Z.eqb_refl. reflexivity.
Qed.

(** A row that does not split into exactly two words, a blank line for
    one, makes [from_affilib] fail with the [ValueError] of [dict()], at
    the first such row, once the structure and the file are read. *)
Theorem from_affilib_malformed_row affilib_path pdb_path model
    rows1 row rows2 :
  load_pdb pdb_path 0 = Ok model →
  readlines affilib_path = Ok (rows1 ++ row :: rows2) →
  Forall (fun r => length (str_split_whitespace r) = 2%nat) rows1 →
  length (str_split_whitespace row) ≠ 2%nat →
  from_affilib Model load_pdb readlines get_resname three_to_one
    affilib_path pdb_path
  = Failed (DictUpdateLength (length rows1)
              (length (str_split_whitespace row))).
Proof.
  intros Hload Hread H1 Hrow.
  unfold from_affilib. rewrite Hload, Hread. simpl.
  rewrite fmap_app, fmap_cons, dict_of_sequences_bad.
  - rewrite length_fmap. reflexivity.
  - apply Forall_fmap. exact H1.
  - exact Hrow.
Qed.

End from_affilib_properties.

Lemma from_affilib_no_identity_witness :
  Forall (Forall (fun s => ∃ w rest mt,
                     s = String w (rest +:+ String mt EmptyString) ∧ w ≠ mt))
    (MutationSpace.lst ex_space).
Proof.
  apply (from_affilib_no_identity unit ex_load_pdb ex_readlines
           ex_get_resname2 ex_three_to_one "affilib.txt" "1abc.pdb" ex_space).
  - intros r w. unfold ex_three_to_one.
    repeat case_bool_decide; intros [= <-]; reflexivity.
  - reflexivity.
Defined.

Lemma from_affilib_missing_wild_type_witness :
  from_affilib unit ex_load_pdb ex_readlines ex_get_resname2 ex_three_to_one
    "nowt.txt" "1abc.pdb" = Failed (NoWildType "Y" "17C").
Proof.
  apply (from_affilib_missing_wild_type unit ex_load_pdb ex_readlines
           ex_get_resname2 ex_three_to_one "nowt.txt" "1abc.pdb" ()
           ["20A TA" +:+ String (ascii_of_nat 10) EmptyString;
            "17C AG" +:+ String (ascii_of_nat 10) EmptyString]
           [("20A", "TA"); ("17C", "AG")] [("20A", "TA")] "17C" "AG" []
           [("TA20", "A")] 17 "C" "TYR" "Y"%char); reflexivity.
Defined.

Lemma from_affilib_malformed_row_witness :
  from_affilib unit ex_load_pdb ex_readlines ex_get_resname2 ex_three_to_one
    "blank.txt" "1abc.pdb" = Failed (DictUpdateLength 1 0).
Proof.
  apply (from_affilib_malformed_row unit ex_load_pdb ex_readlines
           ex_get_resname2 ex_three_to_one "blank.txt" "1abc.pdb" ()
           ["17C YAG" +:+ String (ascii_of_nat 10) EmptyString]
           (String (ascii_of_nat 10) EmptyString)
           ["20A TA" +:+ String (ascii_of_nat 10) EmptyString]).
  - reflexivity.
  - reflexivity.
  - repeat constructor.
  - simpl. lia.
Defined.
